(** * puzzle-js: gateway discovery, fragment rendering and fragment fetching

    A shallow embedding of
    - [src/lib/gateway.ts]  ([GatewayStorefrontInstance], [GatewayBFF]),
    - the fragment module   ([FragmentBFF], [FragmentStorefront]),
    - the api module        ([Api.registerEndpoints]),
    followed by the properties of the specification that concern them.

    Conventions.  A JavaScript object used as a dictionary is a [gmap] with
    string keys.  A promise that has settled, or a synchronous call that may
    throw inside an [async] function, is a [completion].  Side effects
    (logger calls, network requests, timers, emitted events) are recorded in
    explicit state.  Functions of Node and of npm packages ([md5],
    [JSON.stringify], [url.parse], ...) and the constants of [config.ts] are
    fields of the [Runtime] and [Config] interfaces. *)

From stdpp Require Import gmap strings list fin_maps.

Open Scope string_scope.

(** ** JavaScript values and completions *)

(** A value of type [any], as far as query strings, attributes and handler
    data need it: a scalar or an array of strings (what [url.parse] gives a
    repeated key). *)
Inductive jsvalue : Type :=
| JNull
| JBool (b : bool)
| JNum (n : Z)
| JStr (s : string)
| JArr (items : list string).

(** How a promise settles (or how a call inside an [async] function ends):
    with a value, or with a thrown error, kept as its message. *)
Inductive completion (A : Type) : Type :=
| Resolved (a : A)
| Rejected (message : string).
Arguments Resolved {A} a.
Arguments Rejected {A} message.

(** The double quote, as a string. *)
Definition dquote : string := String (Ascii.ascii_of_nat 34) EmptyString.

(** A template literal prints an absent value as the word undefined. *)
Definition template (v : option string) : string :=
  match v with
  | Some s => s
  | None => "undefined"
  end.

(** *** Reading a property of an object

    A dictionary is an object: [o[k]] finds what was stored under [k], and
    otherwise what the object inherits under that name.  A [gmap] holds
    what was stored. *)

(** The names every object inherits from [Object.prototype]; what is found
    under them is a function, or for [__proto__] the prototype itself. *)
Definition object_prototype_names : list string :=
  [ "constructor"; "__defineGetter__"; "__defineSetter__"; "hasOwnProperty";
    "__lookupGetter__"; "__lookupSetter__"; "isPrototypeOf"; "propertyIsEnumerable";
    "toString"; "valueOf"; "__proto__"; "toLocaleString" ].

(** What [o[k]] finds: an entry, a member the object inherits under the
    name (a truthy value that is no entry), or [undefined]. *)
Inductive slot (A : Type) : Type :=
| Own (a : A)
| Foreign (name : string)
| Absent.
Arguments Own {A} a.
Arguments Foreign {A} name.
Arguments Absent {A}.

(** [o[k]] on an object that came from outside (a configuration, the
    result of a handler): its entries are its own properties and its
    prototype is [Object.prototype]. *)
Definition read {A : Type} (o : gmap string A) (k : string) : slot A :=
  match o !! k with
  | Some a => Own a
  | None => if bool_decide (k ∈ object_prototype_names) then Foreign k else Absent
  end.

(** [o[k]] on an object the sources build with [o[name] = value] from [{}].
    An assignment under [__proto__] stores no own property: it makes the
    value the prototype of [o], where [o.__proto__] finds it again and
    where [o] inherits the truthy members of the value, [members].  So the
    entry of the [gmap] under [__proto__], if there is one, is that
    prototype, and the own properties of [o] are the other entries. *)
Definition read_built {A : Type} (members : A -> list string) (o : gmap string A) (k : string)
  : slot A :=
  match o !! k with
  | Some a => Own a
  | None =>
      if bool_decide (k ∈ object_prototype_names) then Foreign k
      else match o !! "__proto__" with
           | Some prototype => if bool_decide (k ∈ members prototype) then Foreign k else Absent
           | None => Absent
           end
  end.

(** The own properties of such an object, which [JSON.stringify] and
    [Object.keys] see. *)
Definition own_properties {A : Type} (o : gmap string A) : gmap string A :=
  delete "__proto__" o.

(** Truthiness of what was read; entries are objects. *)
Definition found {A : Type} (s : slot A) : bool :=
  match s with
  | Own _ | Foreign _ => true
  | Absent => false
  end.

(** How a template literal prints a member of [Object.prototype]: the
    source text of a native function, and the prototype as an object. *)
Definition inherited_text (name : string) : string :=
  if String.eqb name "__proto__" then "[object Object]"
  else if String.eqb name "constructor" then "function Object() { [native code] }"
  else "function " ++ name ++ "() { [native code] }".

(** How a template literal prints what was read from a dictionary of
    strings. *)
Definition print (s : slot string) : string :=
  match s with
  | Own text => text
  | Foreign name => inherited_text name
  | Absent => "undefined"
  end.

(** Truthiness of an optional string: [undefined] and the empty string are
    falsy. *)
Definition truthy_string (v : option string) : bool :=
  match v with
  | Some s => negb (String.eqb s "")
  | None => false
  end.

(** [a || b] on optional strings. *)
Definition or_else (a : option string) (b : string) : string :=
  match a with
  | Some s => if String.eqb s "" then b else s
  | None => b
  end.

(** [s.replace(pat, '')] with a string pattern: the first occurrence of
    [pat] is removed, nothing else. *)
Fixpoint remove_first (pat s : string) : string :=
  if String.prefix pat s then String.substring (String.length pat) (String.length s - String.length pat) s
  else match s with
       | EmptyString => EmptyString
       | String c rest => String c (remove_first pat rest)
       end.

(** ** enums.ts *)

Module Enums.

Inductive FRAGMENT_RENDER_MODES : Type := PREVIEW | STREAM.

Inductive EVENTS : Type := GATEWAY_READY | GATEWAY_UPDATED.

(** The sources name [GET] only. *)
Inductive HTTP_METHODS : Type := GET | OTHER_METHOD (verb : string).

(** Modelled from the spec: [enums.ts] is not among the sources; the wire
    values of the render modes are the ones of the fragment content
    endpoint, [__renderMode={stream|preview}]. *)
Definition render_mode_value (m : FRAGMENT_RENDER_MODES) : string :=
  match m with
  | PREVIEW => "preview"
  | STREAM => "stream"
  end.

End Enums.
Export Enums.

(** ** Types of the catalog ([types/gateway], [types/fragment]) *)

(** [IFileResourceAsset], as far as the sources read it. *)
Record IFileResourceAsset : Type := {
  asset_name : string;
  asset_fileName : string
}.

(** [IFragmentBFFRender]; optional members are options.  [middlewares]
    holds functions and never travels in a catalog; it is left out. *)
Record IFragmentBFFRender : Type := {
  render_static : option bool;
  render_url : string;
  render_routeCache : option nat;
  render_selfReplace : option bool;
  render_cacheControl : option string;
  render_placeholder : option bool;
  render_timeout : option nat
}.

(** [IExposeFragment]: one fragment descriptor of a catalog. *)
Record IExposeFragment : Type := {
  ef_version : string;
  ef_render : IFragmentBFFRender;
  ef_assets : list IFileResourceAsset;
  ef_dependencies : list string;
  ef_testCookie : string
}.

(** [IExposeConfig]: the catalog a gateway serves at its root. *)
Module IExposeConfig.

Record t : Type := {
  fragments : gmap string IExposeFragment;
  hash : string
}.

End IExposeConfig.

(** An object on the JavaScript heap: its address is its identity, so two
    objects with equal contents can still be told apart. *)
Record jsref (A : Type) : Type := {
  addr : nat;
  deref : A
}.
Arguments addr {A} _.
Arguments deref {A} _.

(** ** Interfaces to what lies outside the sources *)

(** Constants of [config.ts]. *)
Class Config : Type := {
  DEFAULT_POLLING_INTERVAL : nat;
  DEFAULT_CONTENT_TIMEOUT : nat;
  DEFAULT_MAIN_PARTIAL : string;
  RENDER_MODE_QUERY_NAME : string;
  PREVIEW_PARTIAL_QUERY_NAME : string;
  API_ROUTE_PREFIX : string
}.

(** A parsed request url, [url.parse(u, true)].  The sources cast it to
    [{pathname: string, query: object}]; [url.parse] leaves [pathname]
    [null] when the url has no path, as in [?a=1]. *)
Record ParsedUrl : Type := {
  pathname : option string;
  parsed_query : gmap string jsvalue
}.

(** ** Timers of the event loop *)

Module Timers.

(** A [NodeJS.Timer] is an object; its identity is a number here. *)
Definition Timer : Type := nat.

(** The interval timers of the process: those still scheduled, each with
    its period, and the identity the next new timer gets. *)
Record Loop : Type := {
  scheduled : gmap Timer nat;
  next_timer : Timer
}.

Definition empty_loop : Loop := {| scheduled := ∅; next_timer := 0 |}.

(** [setInterval(cb, ms)]: a new timer object, scheduled. *)
Definition setInterval (ms : nat) (l : Loop) : Timer * Loop :=
  (next_timer l,
   {| scheduled := <[next_timer l := ms]> (scheduled l);
      next_timer := S (next_timer l) |}).

(** [clearInterval(t)]: the timer no longer fires; clearing a timer that
    is not scheduled does nothing. *)
Definition clearInterval (t : Timer) (l : Loop) : Loop :=
  {| scheduled := delete t (scheduled l); next_timer := next_timer l |}.

End Timers.
Export Timers.

(** ** gateway.ts: GatewayStorefrontInstance *)

Module GatewayStorefrontInstance.

(** What [events.emit(event, this)] hands to the listeners: the event and
    the gateway it comes from. *)
Record Notification : Type := {
  event : EVENTS;
  gateway : string
}.

(** The fields of an instance; [events] keeps what was emitted, oldest
    first. *)
Record t : Type := {
  name : string;
  url : string;
  events : list Notification;
  config : option (jsref IExposeConfig.t);
  intervalId : option Timer
}.

(** The instance together with the event loop it schedules timers on and
    the catalog requests it has sent. *)
Record World : Type := {
  self : t;
  loop : Loop;
  requested : list string
}.

Definition set_config (data : jsref IExposeConfig.t) (g : t) : t :=
  {| name := name g; url := url g; events := events g;
     config := Some data; intervalId := intervalId g |}.

Definition emit (e : EVENTS) (g : t) : t :=
  {| name := name g; url := url g;
     events := events g ++ [ {| event := e; gateway := name g |} ];
     config := config g; intervalId := intervalId g |}.

Definition set_intervalId (i : option Timer) (g : t) : t :=
  {| name := name g; url := url g; events := events g;
     config := config g; intervalId := i |}.

(** [update(data)] *)
Definition update (data : jsref IExposeConfig.t) (g : t) : t :=
  match config g with
  | None => emit GATEWAY_READY (set_config data g)
  | Some stored =>
      if decide (IExposeConfig.hash (deref data) ≠ IExposeConfig.hash (deref stored))
      then emit GATEWAY_UPDATED (set_config data g)
      else g
  end.

(** The settled chain [fetch(url).then(res => res.json())]: the decoded
    catalog, or the failure of the request or of the decoding. *)
Definition Poll : Type := completion (jsref IExposeConfig.t).

(** What [fetch()] does once its request has settled:
    [.then(this.update.bind(this)).catch(e => {})]. *)
Definition settle (p : Poll) (g : t) : t :=
  match p with
  | Resolved data => update data g
  | Rejected _ => g
  end.

(** [fetch()]: the request leaves; its answer comes later ([Settled]). *)
Definition fetch (w : World) : World :=
  {| self := self w; loop := loop w; requested := requested w ++ [url (self w)] |}.

(** [new GatewayStorefrontInstance(gatewayConfig)] *)
Definition new (gw_name gw_url : string) (l : Loop) : World :=
  fetch {| self := {| name := gw_name; url := gw_url; events := [];
                      config := None; intervalId := None |};
           loop := l; requested := [] |}.

(** [startUpdating(pollingInterval = DEFAULT_POLLING_INTERVAL)] *)
Definition startUpdating `{Config} (pollingInterval : option nat) (w : World) : World :=
  let '(id, l) := setInterval (default DEFAULT_POLLING_INTERVAL pollingInterval) (loop w) in
  {| self := set_intervalId (Some id) (self w); loop := l; requested := requested w |}.

(** [stopUpdating()] *)
Definition stopUpdating (w : World) : World :=
  match intervalId (self w) with
  | Some id => {| self := self w; loop := clearInterval id (loop w); requested := requested w |}
  | None => w
  end.

(** What can happen to an instance after its construction: its two public
    methods, a scheduled timer firing (which calls [fetch]), and a request
    settling. *)
Inductive Step : Type :=
| StartUpdating (pollingInterval : option nat)
| StopUpdating
| Fire (timer : Timer)
| Settled (p : Poll).

Definition step `{Config} (s : Step) (w : World) : World :=
  match s with
  | StartUpdating i => startUpdating i w
  | StopUpdating => stopUpdating w
  | Fire timer => if decide (is_Some (scheduled (loop w) !! timer)) then fetch w else w
  | Settled p => {| self := settle p (self w); loop := loop w; requested := requested w |}
  end.

Definition run `{Config} (steps : list Step) (w : World) : World :=
  foldl (fun w s => step s w) w steps.

(** The firings among [steps], run from [w], that find their timer
    scheduled: the ticks of [setInterval]. *)
Fixpoint ticks `{Config} (steps : list Step) (w : World) : nat :=
  match steps with
  | [] => 0
  | s :: rest =>
      match s with
      | Fire timer => if decide (is_Some (scheduled (loop w) !! timer)) then 1 else 0
      | _ => 0
      end + ticks rest (step s w)
  end.

(** A timer is held when it is scheduled and older than every timer still
    to come. *)
Definition held (timer : Timer) (w : World) : Prop :=
  is_Some (scheduled (loop w) !! timer) /\ timer < next_timer (loop w).

(** A timer has leaked when it is held and the instance no longer knows
    it. *)
Definition leaked (timer : Timer) (w : World) : Prop :=
  held timer w /\ intervalId (self w) ≠ Some timer.

(** A step in which neither [startUpdating] nor [stopUpdating] is called:
    a timer fires or a poll settles. *)
Definition quiet (s : Step) : Prop :=
  match s with
  | Fire _ | Settled _ => True
  | StartUpdating _ | StopUpdating => False
  end.

(** A step in which a poll settles with a failure. *)
Definition failed_poll (s : Step) : bool :=
  match s with
  | Settled (Rejected _) => true
  | _ => false
  end.

(** No scheduled timer is as young as the next one to be created. *)
Definition timers_fresh (w : World) : Prop :=
  forall timer, is_Some (scheduled (loop w) !! timer) -> timer < next_timer (loop w).

(** The shape of the event log: nothing while no catalog is stored, then
    one ready event followed by updated events only. *)
Definition log_shape (gw_name : string) (g : t) : Prop :=
  name g = gw_name /\
  match config g with
  | None => events g = []
  | Some _ =>
      exists n,
        events g = {| event := GATEWAY_READY; gateway := gw_name |}
                   :: replicate n {| event := GATEWAY_UPDATED; gateway := gw_name |}
  end.

End GatewayStorefrontInstance.

(** ** fragment module: handlers and configuration of a served fragment *)

(** An [object]: the request a handler receives. *)
Abbreviation jsobject := (gmap string jsvalue).

(** The partials a fragment renders to: [{main: string, [name]: string}]. *)
Abbreviation partials := (gmap string string).

(** [IFragmentHandler].  [content] and [data] may throw or reject; [data]
    is tested for presence before it is called. *)
Module IFragmentHandler.

Record t : Type := {
  content : jsobject -> option jsvalue -> completion partials;
  placeholder : unit -> string;
  data : option (jsobject -> completion jsvalue)
}.

End IFragmentHandler.

(** [IFragmentBFFVersion] *)
Record IFragmentBFFVersion : Type := {
  assets : list IFileResourceAsset;
  dependencies : list string;
  handler : option IFragmentHandler.t
}.

(** [IFragmentBFF] *)
Record IFragmentBFF : Type := {
  fragment_name : string;
  versions : gmap string IFragmentBFFVersion;
  version : string;
  testCookie : string;
  render : IFragmentBFFRender
}.

(** Functions of Node and of npm packages the sources call. *)
Class Runtime : Type := {
  (** [md5(text)] *)
  md5 : string -> string;
  (** [JSON.stringify] of a catalog *)
  JSON_stringify_config : IExposeConfig.t -> string;
  (** [JSON.stringify] of rendered partials *)
  JSON_stringify : partials -> string;
  (** [url.parse(u, true)]; it throws on a url it cannot take apart *)
  url_parse : string -> completion ParsedUrl;
  (** [url.resolve(from, to)] *)
  url_resolve : string -> string -> string;
  (** [querystring.stringify(query)] *)
  querystring_stringify : gmap string jsvalue -> string;
  (** [require(path.join(process.cwd(), "/src/fragments/", name, version))];
      it throws when there is no such module *)
  require_fragment : string -> string -> completion IFragmentHandler.t
}.

(** [p.then(f)] for settled promises, and [await] inside an [async]
    function: written [x ← p; k]. *)
#[global] Instance completion_bind : MBind completion :=
  fun A B (f : A -> completion B) (p : completion A) =>
    match p with
    | Resolved a => f a
    | Rejected e => Rejected e
    end.

#[global] Instance completion_ret : MRet completion := fun A (a : A) => Resolved a.

(** [p.catch(h)] *)
Definition catch {A : Type} (p : completion A) (h : string -> completion A) : completion A :=
  match p with
  | Resolved a => Resolved a
  | Rejected e => h e
  end.

(** The configuration [cfg] with [v] as its live version. *)
Definition with_live_version (v : string) (cfg : IFragmentBFF) : IFragmentBFF :=
  {| fragment_name := fragment_name cfg; versions := versions cfg; version := v;
     testCookie := testCookie cfg; render := render cfg |}.

(** ** fragment module: FragmentBFF *)

Module FragmentBFF.

Record t : Type := {
  config : IFragmentBFF;
  handlers : gmap string IFragmentHandler.t
}.

(** The truthy members of a handler. *)
Definition handler_members (h : IFragmentHandler.t) : list string :=
  ["content"; "placeholder"]
  ++ match IFragmentHandler.data h with
     | Some _ => ["data"]
     | None => []
     end.

(** What [prepareHandlers()] gets for the version [v]: the configured
    handler, or the module found by convention. *)
Definition load `{Runtime} (cfg : IFragmentBFF) (v : string) (ver : IFragmentBFFVersion)
  : completion IFragmentHandler.t :=
  match handler ver with
  | Some configurationHandler => Resolved configurationHandler
  | None => require_fragment (fragment_name cfg) v
  end.

(** [prepareHandlers()], when every module loads: every configured version
    gets its handler.  (A version whose module does not load has none
    here; [construct] throws then.) *)
Definition prepareHandlers `{Runtime} (cfg : IFragmentBFF) : gmap string IFragmentHandler.t :=
  map_imap (fun v (ver : IFragmentBFFVersion) =>
              match load cfg v ver with
              | Resolved h => Some h
              | Rejected _ => None
              end) (versions cfg).

(** The errors of the modules that do not load. *)
Definition missing_modules `{Runtime} (cfg : IFragmentBFF) : list string :=
  omap (fun '(v, ver) =>
          match load cfg v ver with
          | Resolved _ => None
          | Rejected e => Some e
          end) (map_to_list (versions cfg)).

(** The instance [new FragmentBFF(config)] builds. *)
Definition new `{Runtime} (cfg : IFragmentBFF) : t :=
  {| config := cfg; handlers := prepareHandlers cfg |}.

(** [new FragmentBFF(config)]: the instance, unless a module does not
    load. *)
Definition construct `{Runtime} (cfg : IFragmentBFF) : completion t :=
  match missing_modules cfg with
  | [] => Resolved (new cfg)
  | e :: _ => Rejected e
  end.

(** [render(req, version?)] *)
Definition render (f : t) (req : jsobject) (requested : option string) : completion partials :=
  let targetVersion := or_else requested (version (config f)) in
  match read_built handler_members (handlers f) targetVersion with
  | Own h =>
      if default false (render_static (render (config f)))
      then IFragmentHandler.content h req None
      else match IFragmentHandler.data h with
           | Some fetch_data => d ← fetch_data req; IFragmentHandler.content h req (Some d)
           | None =>
               Rejected ("Failed to find data handler for fragment. Fragment: "
                         ++ fragment_name (config f) ++ ", Version: "
                         ++ or_else requested (version (config f)))
           end
  | Foreign _ =>
      (* an inherited member is truthy and has neither [content] nor [data] *)
      if default false (render_static (render (config f)))
      then Rejected "TypeError: handler.content is not a function"
      else Rejected ("Failed to find data handler for fragment. Fragment: "
                     ++ fragment_name (config f) ++ ", Version: "
                     ++ or_else requested (version (config f)))
  | Absent =>
      Rejected ("Failed to find fragment version. Fragment: "
                ++ fragment_name (config f) ++ ", Version: "
                ++ or_else requested (version (config f)))
  end.

(** The version [placeholder] settles on:
    [(version && this.config.versions[version]) ? version : this.config.version]. *)
Definition placeholder_version (f : t) (requested : option string) : string :=
  match requested with
  | Some v =>
      if truthy_string requested && found (read (versions (config f)) v)
      then v else version (config f)
  | None => version (config f)
  end.

(** [placeholder(req, version?)] *)
Definition placeholder (f : t) (req : jsobject) (requested : option string) : completion string :=
  match read_built handler_members (handlers f) (placeholder_version f requested) with
  | Own h => Resolved (IFragmentHandler.placeholder h tt)
  | Foreign _ => Rejected "TypeError: handler.placeholder is not a function"
  | Absent =>
      Rejected ("Failed to find fragment version. Fragment: "
                ++ fragment_name (config f) ++ ", Version: "
                ++ or_else requested (version (config f)))
  end.

End FragmentBFF.

(** ** gateway.ts: GatewayBFF *)

(** [IGatewayBFFConfiguration], as far as [gateway.ts] reads it. *)
Record IGatewayBFFConfiguration : Type := {
  gateway_name : string;
  gateway_url : string;
  gateway_port : nat;
  gateway_isMobile : option bool;
  gateway_fragments : list IFragmentBFF
}.

(** An incoming request, as far as the route handlers read it. *)
Record Request : Type := {
  query : gmap string string;
  cookies : gmap string string
}.

(** What a handler wrote with [res.set], [res.status] and [res.end]. *)
Record Response : Type := {
  status : nat;
  headers : list (string * string);
  body : string
}.

(** How an [async] route handler ends: it has sent a response, or its
    promise rejected before it wrote anything. *)
Inductive Handled : Type :=
| Sent (r : Response)
| Unanswered (message : string).

Module GatewayBFF.

Record t : Type := {
  name : string;
  url : string;
  exposedConfig : IExposeConfig.t;
  config : IGatewayBFFConfiguration;
  fragments : gmap string FragmentBFF.t
}.

(** The truthy members of a [FragmentBFF]: its fields and methods. *)
Definition fragment_members (f : FragmentBFF.t) : list string :=
  (if String.eqb (fragment_name (FragmentBFF.config f)) "" then [] else ["name"])
  ++ ["config"; "handler"; "render"; "placeholder"; "prepareHandlers"].

(** One step of the [reduce] in [createExposeConfig()]: the descriptor of
    [fragment] enters the list, and its [FragmentBFF] the gateway.  Reading
    [assets] of [undefined] throws, when the live version is no version of
    the fragment; then [new FragmentBFF] throws when a module is missing.
    When the live version is no version but a name the versions inherit,
    the code reads [undefined] assets and dependencies and goes on; a
    descriptor [IExposeFragment] always has both, so this model goes no
    further with such a configuration. *)
Definition expose `{Runtime}
    (acc : completion (gmap string IExposeFragment * gmap string FragmentBFF.t))
    (fragment : IFragmentBFF)
  : completion (gmap string IExposeFragment * gmap string FragmentBFF.t) :=
  '(fragmentList, registered) ← acc;
  match read (versions fragment) (version fragment) with
  | Own live =>
      fragmentBFF ← FragmentBFF.construct fragment;
      Resolved
        (<[fragment_name fragment :=
             {| ef_version := version fragment;
                ef_render := render fragment;
                ef_assets := assets live;
                ef_dependencies := dependencies live;
                ef_testCookie := testCookie fragment |}]> fragmentList,
         <[fragment_name fragment := fragmentBFF]> registered)
  | Foreign _ => Rejected "a descriptor without assets is not modelled"
  | Absent => Rejected "TypeError: Cannot read property 'assets' of undefined"
  end.

(** [createExposeConfig()], with the fragments it registers on the way. *)
Definition createExposeConfig `{Runtime} (cfg : IGatewayBFFConfiguration)
  : completion (IExposeConfig.t * gmap string FragmentBFF.t) :=
  '(fragmentList, registered) ← foldl expose (Resolved (∅, ∅)) (gateway_fragments cfg);
  Resolved ({| IExposeConfig.fragments := fragmentList; IExposeConfig.hash := "" |}, registered).

(** [new GatewayBFF(gatewayConfig)] *)
Definition new `{Runtime} (cfg : IGatewayBFFConfiguration) : completion t :=
  '(exposed, registered) ← createExposeConfig cfg;
  Resolved
    {| name := gateway_name cfg;
       url := gateway_url cfg;
       exposedConfig := {| IExposeConfig.fragments := IExposeConfig.fragments exposed;
                           IExposeConfig.hash := md5 (JSON_stringify_config exposed) |};
       config := cfg;
       fragments := registered |}.

(** [wrapFragmentContent(htmlContent, fragmentName)] *)
Definition wrapFragmentContent (g : t) (htmlContent : slot string) (fragmentName : string) : string :=
  "<html><head><title>" ++ gateway_name (config g) ++ " - " ++ fragmentName ++ "</title>"
  ++ (if default false (gateway_isMobile (config g))
      then "<meta name=" ++ dquote ++ "viewport" ++ dquote ++ " content=" ++ dquote
           ++ "width=device-width, initial-scale=1.0, maximum-scale=1.0, user-scalable=no"
           ++ dquote ++ " />"
      else "")
  ++ "</head><body>" ++ print htmlContent ++ "</body></html>".

(** [this.fragments[fragmentName]] *)
Definition registered (g : t) (fragmentName : string) : slot FragmentBFF.t :=
  read_built fragment_members (fragments g) fragmentName.

(** [renderFragment(fragmentName, renderMode = PREVIEW, partial, cookieValue?)] *)
Definition renderFragment `{Runtime} (g : t) (fragmentName : string)
    (renderMode : option FRAGMENT_RENDER_MODES) (partial : string)
    (cookieValue : option string) : completion string :=
  match registered g fragmentName with
  | Own fragment =>
      fragmentContent ← FragmentBFF.render fragment ∅ cookieValue;
      match default PREVIEW renderMode with
      | STREAM => Resolved (JSON_stringify fragmentContent)
      | PREVIEW => Resolved (wrapFragmentContent g (read fragmentContent partial) fragmentName)
      end
  | Foreign _ =>
      (* an inherited member is truthy and has no method [render] *)
      Rejected "TypeError: this.fragments[fragmentName].render is not a function"
  | Absent => Rejected ("Failed to find fragment: " ++ fragmentName)
  end.

(** The body [renderFragment] resolves to, for a registered fragment whose
    render gave [fragmentContent]. *)
Definition rendered `{Runtime} (g : t) (fragmentName : string) (mode : FRAGMENT_RENDER_MODES)
    (partial : string) (fragmentContent : partials) : string :=
  match mode with
  | STREAM => JSON_stringify fragmentContent
  | PREVIEW => wrapFragmentContent g (read fragmentContent partial) fragmentName
  end.

(** The mode a request to a fragment route asks for. *)
Definition requested_mode `{Config} (req : Request) : FRAGMENT_RENDER_MODES :=
  if decide (query req !! RENDER_MODE_QUERY_NAME = Some (render_mode_value STREAM))
  then STREAM else PREVIEW.

(** The handler [addFragmentRoutes] registers for [fragmentConfig]. *)
Definition fragment_route `{Config} `{Runtime} (g : t) (fragmentConfig : IFragmentBFF)
    (req : Request) : Handled :=
  let renderMode := requested_mode req in
  match renderFragment g (fragment_name fragmentConfig) (Some renderMode)
          (or_else (query req !! PREVIEW_PARTIAL_QUERY_NAME) DEFAULT_MAIN_PARTIAL)
          (cookies req !! testCookie fragmentConfig) with
  | Resolved gatewayContent =>
      match renderMode with
      | STREAM =>
          Sent {| status := 200;
                  headers := [("content-type", "application/json")];
                  body := gatewayContent |}
      | PREVIEW => Sent {| status := 200; headers := []; body := gatewayContent |}
      end
  | Rejected e => Unanswered e
  end.

(** [addFragmentRoutes]: the path of every fragment route, with the
    fragment whose handler it gets (all of them for [GET]). *)
Definition addFragmentRoutes (g : t) : list (string * IFragmentBFF) :=
  map (fun fragmentConfig =>
         ("/" ++ fragment_name fragmentConfig ++ render_url (render fragmentConfig),
          fragmentConfig))
      (gateway_fragments (config g)).

End GatewayBFF.

(** ** api module: Api *)

Module Api.

(** [IApiHandler]; [middlewares] holds functions and is left out. *)
Record IApiHandler : Type := {
  path : string;
  method : HTTP_METHODS;
  cacheControl : option string;
  routeCache : option nat;
  controller : string
}.

(** [IApiVersion]; the controllers of its [handler] are named by the
    endpoints. *)
Record IApiVersion : Type := {
  endpoints : list IApiHandler
}.

(** [IApiConfig] *)
Record IApiConfig : Type := {
  name : string;
  testCookie : string;
  liveVersion : string;
  versions : gmap string IApiVersion
}.

(** A request as the version middleware sees it. *)
Record ApiRequest : Type := {
  url : string;
  cookies : gmap string string
}.

(** A registered route: its path and method, and the controller of the
    version that answers it, [this.handler[version][endpoint.controller]]. *)
Record Route : Type := {
  route_path : string;
  route_method : HTTP_METHODS;
  route_version : string;
  route_controller : string
}.

(** An array is truthy whatever it holds. *)
Definition truthy_array {A : Type} (items : list A) : bool := true.

(** The version the middleware of [registerEndpoints] picks.  A missing
    cookie indexes [versions] as the key undefined; a cookie that names a
    member the versions inherit is kept like one that names a version. *)
Definition requestVersion (cfg : IApiConfig) (req : ApiRequest) : option string :=
  let cookie := cookies req !! testCookie cfg in
  if truthy_array [cookie]
  then if found (read (versions cfg) (template cookie))
       then cookie
       else Some (liveVersion cfg)
  else Some (liveVersion cfg).

(** The middleware of [registerEndpoints]: the url gets the version in
    front. *)
Definition version_middleware (cfg : IApiConfig) (req : ApiRequest) : ApiRequest :=
  {| url := "/" ++ template (requestVersion cfg req) ++ url req; cookies := cookies req |}.

(** The routes [registerEndpoints] adds: one per version and endpoint. *)
Definition routes `{Config} (cfg : IApiConfig) : list Route :=
  '(v, apiHandler) ← map_to_list (versions cfg);
  endpoint ← endpoints apiHandler;
  [ {| route_path := "/" ++ API_ROUTE_PREFIX ++ "/" ++ name cfg ++ "/" ++ v ++ path endpoint;
       route_method := method endpoint;
       route_version := v;
       route_controller := controller endpoint |} ].

End Api.

(** ** fragment module: FragmentStorefront *)

Module FragmentStorefront.

(** The second argument of [fetch]. *)
Record RequestConfiguration : Type := {
  timeout : nat;
  headers : option (gmap string string)
}.

(** A response of [node-fetch]: its status, and how reading its body as
    text or as JSON settles. *)
Record HttpResponse : Type := {
  res_status : nat;
  res_text : completion string;
  res_json : completion partials
}.

(** The network: how [fetch(url, configuration)] settles.  It rejects when
    the request times out or the transport fails. *)
Definition Network : Type := string -> option RequestConfiguration -> completion HttpResponse.

(** What a call leaves behind: lines of the logger, requests sent. *)
Inductive Effect : Type :=
| LogError (message : string)
| Fetch (url : string) (configuration : option RequestConfiguration).

(** A computation of an [async] method: the effects it had, in order, and
    how its promise settles. *)
Record IO (A : Type) : Type := {
  trace : list Effect;
  outcome : completion A
}.
Arguments trace {A} _.
Arguments outcome {A} _.

#[global] Instance io_ret : MRet IO := fun A (a : A) => {| trace := []; outcome := Resolved a |}.

#[global] Instance io_bind : MBind IO :=
  fun A B (f : A -> IO B) (m : IO A) =>
    match outcome m with
    | Resolved a => {| trace := trace m ++ trace (f a); outcome := outcome (f a) |}
    | Rejected e => {| trace := trace m; outcome := Rejected e |}
    end.

(** [m.catch(h)] *)
Definition io_catch {A : Type} (m : IO A) (h : string -> IO A) : IO A :=
  match outcome m with
  | Resolved a => m
  | Rejected e => {| trace := trace m ++ trace (h e); outcome := outcome (h e) |}
  end.

(** [logger.error(message)] *)
Definition log_error (message : string) : IO unit :=
  {| trace := [LogError message]; outcome := Resolved tt |}.

(** [fetch(url, configuration)] *)
Definition fetch (net : Network) (url : string) (configuration : option RequestConfiguration)
  : IO HttpResponse :=
  {| trace := [Fetch url configuration]; outcome := net url configuration |}.

(** The urls of the requests among some effects, in order. *)
Definition requests (effects : list Effect) : list string :=
  omap (fun e => match e with
                 | Fetch url _ => Some url
                 | LogError _ => None
                 end) effects.

(** Reading a body: [res.text()], [res.json()]. *)
Definition settled {A : Type} (c : completion A) : IO A := {| trace := []; outcome := c |}.

(** [IFragmentContentResponse] *)
Record IFragmentContentResponse : Type := {
  status : nat;
  html : partials
}.

(** The request of the caller, as [getContent] receives it. *)
Record CallerRequest : Type := {
  url : string;
  caller_headers : option (gmap string string)
}.

Record t : Type := {
  name : string;
  config : option IExposeFragment;
  primary : bool;
  shouldWait : bool;
  from : string;
  fragmentUrl : option string
}.

(** [new FragmentStorefront(name, from)] *)
Definition new (fragment_name gateway : string) : t :=
  {| name := fragment_name; config := None; primary := false; shouldWait := false;
     from := gateway; fragmentUrl := None |}.

(** [update(config, gatewayUrl, assetUrl?)] *)
Definition update `{Runtime} (cfg : IExposeFragment) (gatewayUrl : string)
    (assetUrl : option string) (f : t) : t :=
  {| name := name f;
     config := Some cfg;
     primary := primary f;
     shouldWait := shouldWait f;
     from := from f;
     fragmentUrl :=
       Some (if truthy_string assetUrl
             then url_resolve (template assetUrl) (name f)
             else url_resolve gatewayUrl (name f)) |}.

(** [getPlaceholder()] *)
Definition getPlaceholder (net : Network) (f : t) : IO string :=
  match config f with
  | None =>
      _ ← log_error ("No config provided for fragment: " ++ name f);
      mret ""
  | Some cfg =>
      if negb (default false (render_placeholder (ef_render cfg)))
      then _ ← log_error "Placeholder is not enabled for fragment";
           mret ""
      else io_catch
             (res ← fetch net (template (fragmentUrl f) ++ "/placeholder") None;
              html ← settled (res_text res);
              mret html)
             (fun err =>
                _ ← log_error ("Failed to fetch placeholder for fragment: "
                               ++ template (fragmentUrl f) ++ "/placeholder");
                mret "")
  end.

(** The query [getContent] starts from:
    [{...attribs, __renderMode: FRAGMENT_RENDER_MODES.STREAM}]. *)
Definition initial_query (attribs : jsobject) : jsobject :=
  <["__renderMode" := JStr (render_mode_value STREAM)]> attribs.

(** The url of the caller, parsed when there is a request with one. *)
Definition parsedRequest `{Runtime} (req : option CallerRequest) : completion (option ParsedUrl) :=
  match req with
  | Some r =>
      if truthy_string (Some (url r))
      then parsed ← url_parse (url r); Resolved (Some parsed)
      else Resolved None
  | None => Resolved None
  end.

(** The five [delete]s of [getContent]. *)
Definition strip (query : jsobject) : jsobject :=
  delete "shouldwait" (delete "primary" (delete "partial" (delete "name" (delete "from" query)))).

(** The query [getContent] sends on: the attributes and the render mode,
    overridden by the query of the caller ([{...query, ...parsedRequest.query}]),
    less the deleted keys. *)
Definition forwarded_query `{Runtime} (attribs : jsobject) (req : option CallerRequest) : jsobject :=
  strip match parsedRequest req with
        | Resolved (Some parsed) => parsed_query parsed ∪ initial_query attribs
        | _ => initial_query attribs
        end.

(** [requestConfiguration] *)
Definition requestConfiguration `{Config} (cfg : IExposeFragment) (req : option CallerRequest)
  : RequestConfiguration :=
  {| timeout := match render_timeout (ef_render cfg) with
                | Some 0 | None => DEFAULT_CONTENT_TIMEOUT
                | Some ms => ms
                end;
     headers := match req with
                | Some r => caller_headers r
                | None => None
                end |}.

(** [routeRequest], from the parsing of the url on: [url.parse] may
    throw, and [parsedRequest.pathname.replace] throws on a [null]
    pathname. *)
Definition routeRequest `{Runtime} (f : t) (attribs : jsobject) (req : option CallerRequest)
  : completion string :=
  parsed ← parsedRequest req;
  match req, parsed with
  | Some _, Some parsed =>
      match pathname parsed with
      | Some path =>
          Resolved (remove_first ("/" ++ name f) path
                    ++ "?" ++ querystring_stringify (forwarded_query attribs req))
      | None => Rejected "TypeError: Cannot read property 'replace' of null"
      end
  | _, _ => Resolved ("/?" ++ querystring_stringify (forwarded_query attribs req))
  end.

(** The result [getContent] falls back to. *)
Definition failed : IFragmentContentResponse := {| status := 500; html := ∅ |}.

(** [getContent(attribs = {}, req?)] *)
Definition getContent `{Config} `{Runtime} (net : Network) (f : t)
    (attribs : option jsobject) (req : option CallerRequest) : IO IFragmentContentResponse :=
  match config f with
  | None =>
      _ ← log_error ("No config provided for fragment: " ++ name f);
      mret failed
  | Some cfg =>
      route ← settled (routeRequest f (default ∅ attribs) req);
      io_catch
        (res ← fetch net (template (fragmentUrl f) ++ route)
                     (Some (requestConfiguration cfg req));
         json ← settled (res_json res);
         mret {| status := res_status res; html := json |})
        (fun err =>
           _ ← log_error ("Failed to get contents for fragment: " ++ name f);
           mret failed)
  end.

(** [this.config.assets.find(asset => asset.name === name)] *)
Definition find_asset (cfg : IExposeFragment) (asset : string) : option IFileResourceAsset :=
  List.find (fun a => String.eqb (asset_name a) asset) (ef_assets cfg).

(** [getAsset(name)]; [null] is [None]. *)
Definition getAsset (net : Network) (f : t) (asset : string) : IO (option string) :=
  match config f with
  | None =>
      _ ← log_error ("No config provided for fragment: " ++ name f);
      mret None
  | Some cfg =>
      match find_asset cfg asset with
      | None =>
          _ ← log_error ("Asset not declared in fragments asset list: " ++ asset);
          mret None
      | Some found =>
          io_catch
            (res ← fetch net (template (fragmentUrl f) ++ "/static/" ++ asset_fileName found) None;
             text ← settled (res_text res);
             mret (Some text))
            (fun e =>
               _ ← log_error ("Failed to fetch asset from gateway: "
                              ++ template (fragmentUrl f) ++ "/static/" ++ asset_fileName found);
               mret None)
      end
  end.

(** [getAssetPath(name)]; [null] is [None]. *)
Definition getAssetPath (f : t) (asset : string) : IO (option string) :=
  match config f with
  | None =>
      _ ← log_error ("No config provided for fragment: " ++ name f);
      mret None
  | Some cfg =>
      match find_asset cfg asset with
      | None =>
          _ ← log_error ("Asset not declared in fragments asset list: " ++ asset);
          mret None
      | Some found =>
          mret (Some (template (fragmentUrl f) ++ "/static/" ++ asset_fileName found))
      end
  end.

End FragmentStorefront.

(** ** Sample configurations *)

Module Samples.

(** Constants a deployment may run with. *)
Definition sample_config : Config :=
  {| DEFAULT_POLLING_INTERVAL := 1250;
     DEFAULT_CONTENT_TIMEOUT := 3000;
     DEFAULT_MAIN_PARTIAL := "main";
     RENDER_MODE_QUERY_NAME := "__renderMode";
     PREVIEW_PARTIAL_QUERY_NAME := "__partial";
     API_ROUTE_PREFIX := "api" |}.

(** A handler whose data stage answers and whose content stage renders
    one partial. *)
Definition product_handler : IFragmentHandler.t :=
  {| IFragmentHandler.content := fun _ _ => Resolved {[ "main" := "Product Content" ]};
     IFragmentHandler.placeholder := fun _ => "Product Placeholder";
     IFragmentHandler.data := Some (fun _ => Resolved (JStr "chair")) |}.

(** A handler whose data stage fails. *)
Definition failing_handler : IFragmentHandler.t :=
  {| IFragmentHandler.content := fun _ _ => Resolved {[ "main" := "Product Content" ]};
     IFragmentHandler.placeholder := fun _ => "Product Placeholder";
     IFragmentHandler.data := Some (fun _ => Rejected "product service is down") |}.

(** The url of the sample page request, taken apart. *)
Definition page_request_parsed : ParsedUrl :=
  {| pathname := Some "/product/";
     parsed_query := {[ "color" := JStr "red"; "from" := JStr "Browsing";
                        "primary" := JStr "true" ]} |}.

(** A stand-in for the library functions: a serializer that prints the
    main partial, a digest that tags its input, a parser that knows the
    urls of the samples below. *)
Definition sample_runtime : Runtime :=
  {| md5 := fun text => "md5(" ++ text ++ ")";
     JSON_stringify_config := fun c => "{hash:" ++ IExposeConfig.hash c ++ "}";
     JSON_stringify := fun p => "{main:" ++ template (p !! "main") ++ "}";
     url_parse := fun u =>
       if String.eqb u "/product/?color=red&from=Browsing&primary=true"
       then Resolved page_request_parsed
       else if String.eqb u "?color=red"
       then Resolved {| pathname := None; parsed_query := {[ "color" := JStr "red" ]} |}
       else Resolved {| pathname := Some u; parsed_query := ∅ |};
     url_resolve := fun base to => base ++ "/" ++ to;
     querystring_stringify := fun q =>
       foldr (fun kv acc => kv.1 ++ ";" ++ acc) "" (map_to_list q);
     require_fragment := fun _ _ => Resolved product_handler |}.

Definition plain_render : IFragmentBFFRender :=
  {| render_static := None; render_url := "/"; render_routeCache := None;
     render_selfReplace := None; render_cacheControl := None;
     render_placeholder := None; render_timeout := None |}.

Definition placeholder_render : IFragmentBFFRender :=
  {| render_static := None; render_url := "/"; render_routeCache := None;
     render_selfReplace := None; render_cacheControl := None;
     render_placeholder := Some true; render_timeout := None |}.

(** The fragment of the test suite: one version, 1.0.0. *)
Definition product (h : IFragmentHandler.t) : IFragmentBFF :=
  {| fragment_name := "product";
     versions := {[ "1.0.0" := {| assets := []; dependencies := []; handler := Some h |} ]};
     version := "1.0.0";
     testCookie := "product-version";
     render := plain_render |}.

Definition browsing (h : IFragmentHandler.t) : IGatewayBFFConfiguration :=
  {| gateway_name := "Browsing";
     gateway_url := "http://localhost:4446";
     gateway_port := 4446;
     gateway_isMobile := None;
     gateway_fragments := [product h] |}.

(** The gateway built from [browsing h]: what [new GatewayBFF] resolves
    to. *)
Definition browsing_gateway (h : IFragmentHandler.t) : GatewayBFF.t :=
  {| GatewayBFF.name := "Browsing";
     GatewayBFF.url := "http://localhost:4446";
     GatewayBFF.exposedConfig :=
       {| IExposeConfig.fragments :=
            {[ "product" := {| ef_version := "1.0.0"; ef_render := plain_render;
                               ef_assets := []; ef_dependencies := [];
                               ef_testCookie := "product-version" |} ]};
          IExposeConfig.hash := "md5({hash:})" |};
     GatewayBFF.config := browsing h;
     GatewayBFF.fragments := {[ "product" := @FragmentBFF.new sample_runtime (product h) ]} |}.

Definition descriptor (r : IFragmentBFFRender) : IExposeFragment :=
  {| ef_version := "1.0.0"; ef_render := r; ef_assets := []; ef_dependencies := [];
     ef_testCookie := "product-version" |}.

(** Two catalogs that differ in a descriptor and carry the same hash. *)
Definition catalog_stored : jsref IExposeConfig.t :=
  {| addr := 1;
     deref := {| IExposeConfig.fragments := {[ "product" := descriptor plain_render ]};
                 IExposeConfig.hash := "12345" |} |}.

Definition catalog_polled : jsref IExposeConfig.t :=
  {| addr := 2;
     deref := {| IExposeConfig.fragments := {[ "product" := descriptor placeholder_render ]};
                 IExposeConfig.hash := "12345" |} |}.

(** The second catalog again, under a hash of its own. *)
Definition catalog_changed : jsref IExposeConfig.t :=
  {| addr := 3;
     deref := {| IExposeConfig.fragments := {[ "product" := descriptor placeholder_render ]};
                 IExposeConfig.hash := "67890" |} |}.

(** A storefront's view of the Browsing gateway, its catalog stored. *)
Definition browsing_instance : GatewayStorefrontInstance.t :=
  {| GatewayStorefrontInstance.name := "Browsing";
     GatewayStorefrontInstance.url := "http://localhost:4446";
     GatewayStorefrontInstance.events :=
       [ {| GatewayStorefrontInstance.event := GATEWAY_READY;
            GatewayStorefrontInstance.gateway := "Browsing" |} ];
     GatewayStorefrontInstance.config := Some catalog_stored;
     GatewayStorefrontInstance.intervalId := None |}.

(** The same, just constructed on an idle event loop. *)
Definition browsing_world : GatewayStorefrontInstance.World :=
  GatewayStorefrontInstance.new "Browsing" "http://localhost:4446" empty_loop.

(** An api with one version, live. *)
Definition basket_api : Api.IApiConfig :=
  {| Api.name := "basket";
     Api.testCookie := "basket-version";
     Api.liveVersion := "1.0.0";
     Api.versions :=
       {[ "1.0.0" := {| Api.endpoints :=
                          [ {| Api.path := "/items"; Api.method := GET;
                               Api.cacheControl := None; Api.routeCache := None;
                               Api.controller := "list" |} ] |} ]} |}.

(** The product fragment as a storefront holds it, before and after the
    catalog reached it. *)
Definition product_unconfigured : FragmentStorefront.t :=
  FragmentStorefront.new "product" "Browsing".

Definition product_configured (r : IFragmentBFFRender) : FragmentStorefront.t :=
  @FragmentStorefront.update sample_runtime (descriptor r) "http://localhost:4446" None
    product_unconfigured.

(** A network on which every request times out. *)
Definition network_down : FragmentStorefront.Network :=
  fun _ _ => Rejected "network timeout".

(** A network that answers every request. *)
Definition network_up : FragmentStorefront.Network :=
  fun _ _ =>
    Resolved {| FragmentStorefront.res_status := 200;
                FragmentStorefront.res_text := Resolved "Product Placeholder";
                FragmentStorefront.res_json := Resolved {[ "main" := "Product Content" ]} |}.

(** A page request that names the fragment and carries a query of its
    own. *)
Definition page_request : FragmentStorefront.CallerRequest :=
  {| FragmentStorefront.url := "/product/?color=red&from=Browsing&primary=true";
     FragmentStorefront.caller_headers := None |}.

(** A request for the stream of the product fragment. *)
Definition stream_request : Request :=
  {| query := {[ "__renderMode" := "stream" ]}; cookies := ∅ |}.

(** A descriptor with two assets; the second repeats the name of the
    first. *)
Definition descriptor_with_assets : IExposeFragment :=
  {| ef_version := "1.0.0"; ef_render := plain_render;
     ef_assets := [ {| asset_name := "bundle"; asset_fileName := "bundle.min.js" |};
                    {| asset_name := "bundle"; asset_fileName := "bundle.old.js" |} ];
     ef_dependencies := [];
     ef_testCookie := "product-version" |}.

Definition product_with_assets : FragmentStorefront.t :=
  @FragmentStorefront.update sample_runtime descriptor_with_assets "http://localhost:4446" None
    product_unconfigured.

(** A product fragment whose live version is not among its versions. *)
Definition product_without_live (h : IFragmentHandler.t) : IFragmentBFF :=
  {| fragment_name := "product";
     versions := {[ "1.0.0" := {| assets := []; dependencies := []; handler := Some h |} ]};
     version := "2.0.0";
     testCookie := "product-version";
     render := plain_render |}.

(** A network that answers the content request with a 404 of the
    fragment. *)
Definition network_not_found : FragmentStorefront.Network :=
  fun _ _ =>
    Resolved {| FragmentStorefront.res_status := 404;
                FragmentStorefront.res_text := Resolved "Product Content Not Found";
                FragmentStorefront.res_json :=
                  Resolved {[ "main" := "Product Content Not Found" ]} |}.

(** A gateway configuration that names the product fragment twice, first
    with the failing handler. *)
Definition browsing_twice : IGatewayBFFConfiguration :=
  {| gateway_name := "Browsing";
     gateway_url := "http://localhost:4446";
     gateway_port := 4446;
     gateway_isMobile := None;
     gateway_fragments := [product failing_handler; product product_handler] |}.

End Samples.

(** * Properties *)

(** ** The discovery client: polls *)

Section Discovery.

Import GatewayStorefrontInstance.

Lemma update_first (data : jsref IExposeConfig.t) (g : t) :
  config g = None ->
  update data g = emit GATEWAY_READY (set_config data g).
Proof. intros Hnone. unfold update. by rewrite Hnone. Qed.

Lemma update_changed (data stored : jsref IExposeConfig.t) (g : t) :
  config g = Some stored ->
  IExposeConfig.hash (deref data) ≠ IExposeConfig.hash (deref stored) ->
  update data g = emit GATEWAY_UPDATED (set_config data g).
Proof.
  intros Hstored Hne. unfold update. rewrite Hstored.
  destruct (decide _) as [_ | Hno]; [done | by destruct Hno].
Qed.

Lemma update_unchanged (data stored : jsref IExposeConfig.t) (g : t) :
  config g = Some stored ->
  IExposeConfig.hash (deref data) = IExposeConfig.hash (deref stored) ->
  update data g = g.
Proof.
  intros Hstored Heq. unfold update. rewrite Hstored.
  destruct (decide _) as [Hne | _]; [by destruct Hne | done].
Qed.

(** C1.  A successful poll hands its catalog to [update].  With no snapshot
    stored, the catalog is stored and one ready notification is emitted;
    with a snapshot of another hash stored, the catalog replaces it and one
    updated notification is emitted; with a snapshot of the same hash
    stored, the instance is left as it was: the stored snapshot is the same
    object (same address) and nothing is emitted. *)
Theorem poll_ready_updated_or_unchanged (data : jsref IExposeConfig.t) (g : t) :
  let g' := settle (Resolved data) g in
  (config g = None ->
     config g' = Some data /\
     events g' = (events g ++ [ {| event := GATEWAY_READY; gateway := name g |} ])%list) /\
  (forall stored, config g = Some stored ->
     IExposeConfig.hash (deref data) ≠ IExposeConfig.hash (deref stored) ->
     config g' = Some data /\
     events g' = (events g ++ [ {| event := GATEWAY_UPDATED; gateway := name g |} ])%list) /\
  (forall stored, config g = Some stored ->
     IExposeConfig.hash (deref data) = IExposeConfig.hash (deref stored) ->
     config g' = Some stored /\
     addr <$> config g' = Some (addr stored) /\
     events g' = events g).
Proof.
  cbn [settle]. split; [| split].
  - intros Hnone. by rewrite update_first.
  - intros stored Hstored Hne. by rewrite (update_changed _ _ _ Hstored Hne).
  - intros stored Hstored Heq. rewrite (update_unchanged _ _ _ Hstored Heq).
    by rewrite Hstored.
Qed.

(** A failed poll leaves the instance alone. *)
Lemma settle_rejected (e : string) (g : t) : settle (Rejected e) g = g.
Proof. done. Qed.

End Discovery.

(** ** The discovery client: what counts as a change *)

Section Hashing.

Import GatewayStorefrontInstance.

(** Building the catalog stops at the first fragment that fails. *)
Lemma foldl_expose_rejected `{Runtime} (e : string) (l : list IFragmentBFF) :
  foldl GatewayBFF.expose (Rejected e) l = Rejected e.
Proof. induction l as [| f l IH]; [done | exact IH]. Qed.

(** The catalog [createExposeConfig] returns carries the empty hash. *)
Lemma createExposeConfig_hash `{Runtime} cfg exposed registered :
  GatewayBFF.createExposeConfig cfg = Resolved (exposed, registered) ->
  IExposeConfig.hash exposed = "".
Proof.
  unfold GatewayBFF.createExposeConfig.
  destruct (foldl _ _ _) as [[fl reg] | e]; cbn; [| done].
  by intros [= <- _].
Qed.

(** C6, as amended.  The hash is computed by the gateway that serves the
    catalog: [new GatewayBFF] sets it to the md5 of the JSON text of the
    catalog (whose hash field is still empty then).  The discovery client
    computes nothing: a successful poll replaces a stored snapshot exactly
    when the hash field it carries differs from the stored one. *)
Theorem change_is_difference_of_carried_hash `{Runtime}
    (cfg : IGatewayBFFConfiguration) (data stored : jsref IExposeConfig.t) (g : t) :
  (forall gw, GatewayBFF.new cfg = Resolved gw ->
     exists exposed registered,
       GatewayBFF.createExposeConfig cfg = Resolved (exposed, registered) /\
       IExposeConfig.hash exposed = "" /\
       IExposeConfig.fragments (GatewayBFF.exposedConfig gw) = IExposeConfig.fragments exposed /\
       IExposeConfig.hash (GatewayBFF.exposedConfig gw) = md5 (JSON_stringify_config exposed)) /\
  (config g = Some stored ->
     settle (Resolved data) g =
       if decide (IExposeConfig.hash (deref data) = IExposeConfig.hash (deref stored))
       then g
       else emit GATEWAY_UPDATED (set_config data g)).
Proof.
  split.
  - intros gw. unfold GatewayBFF.new.
    destruct (GatewayBFF.createExposeConfig cfg) as [[exposed registered] | e] eqn:Hc;
      cbn; [| done].
    intros [= <-]. exists exposed, registered.
    split; [done |]. split; [by eapply createExposeConfig_hash |]. done.
  - intros Hstored. cbn [settle]. destruct (decide _) as [Heq | Hne].
    + by eapply update_unchanged.
    + by eapply update_changed.
Qed.

End Hashing.

(** ** The discovery client: timers *)

Section Polling.

Import GatewayStorefrontInstance.
Context `{Config}.

Lemma startUpdating_intervalId (i : option nat) (w : World) :
  intervalId (self (startUpdating i w)) = Some (next_timer (loop w)).
Proof. done. Qed.

Lemma startUpdating_scheduled (i : option nat) (w : World) :
  scheduled (loop (startUpdating i w))
  = <[next_timer (loop w) := default DEFAULT_POLLING_INTERVAL i]> (scheduled (loop w)).
Proof. done. Qed.

Lemma startUpdating_next_timer (i : option nat) (w : World) :
  next_timer (loop (startUpdating i w)) = S (next_timer (loop w)).
Proof. done. Qed.

Lemma stopUpdating_self (w : World) : self (stopUpdating w) = self w.
Proof. unfold stopUpdating. by destruct (intervalId (self w)). Qed.

Lemma stopUpdating_scheduled (w : World) :
  scheduled (loop (stopUpdating w))
  = match intervalId (self w) with
    | Some id => delete id (scheduled (loop w))
    | None => scheduled (loop w)
    end.
Proof. unfold stopUpdating. by destruct (intervalId (self w)). Qed.

Lemma held_step (timer : Timer) (s : Step) (w : World) :
  s ≠ StopUpdating -> held timer w -> held timer (step s w).
Proof.
  intros Hs [Hsched Hlt]. destruct s as [i | | fired | p]; cbn [step].
  - split.
    + rewrite startUpdating_scheduled, lookup_insert_ne by lia. done.
    + rewrite startUpdating_next_timer. lia.
  - done.
  - by destruct (decide _).
  - done.
Qed.

Lemma held_run (timer : Timer) (steps : list Step) (w : World) :
  StopUpdating ∉ steps -> held timer w -> held timer (run steps w).
Proof.
  revert w. induction steps as [| s steps IH]; intros w Hno Hheld; [done |].
  cbn. apply IH.
  - intros Hin. apply Hno. by right.
  - apply held_step; [| done]. intros ->. apply Hno. by left.
Qed.

Lemma leaked_step (timer : Timer) (s : Step) (w : World) :
  leaked timer w -> leaked timer (step s w).
Proof.
  intros [[Hsched Hlt] Hid]. destruct s as [i | | fired | p]; cbn [step].
  - split; [split |].
    + rewrite startUpdating_scheduled, lookup_insert_ne by lia. done.
    + rewrite startUpdating_next_timer. lia.
    + rewrite startUpdating_intervalId. intros [= Heq]. lia.
  - split; [split |].
    + rewrite stopUpdating_scheduled.
      destruct (intervalId (self w)) as [id |]; [| done].
      rewrite lookup_delete_ne; [done | congruence].
    + unfold stopUpdating. by destruct (intervalId (self w)).
    + by rewrite stopUpdating_self.
  - by destruct (decide _).
  - split; [by split |]. cbn. destruct p as [data | e]; [| done].
    cbn. unfold update. destruct (config (self w)); [| done].
    by destruct (decide _).
Qed.

Lemma leaked_run (timer : Timer) (steps : list Step) (w : World) :
  leaked timer w -> leaked timer (run steps w).
Proof.
  revert w. induction steps as [| s steps IH]; intros w Hleak; [done |].
  cbn. by apply IH, leaked_step.
Qed.

(** C8.  [stopUpdating] cancels the timer [startUpdating] scheduled; on an
    instance that never started polling it changes nothing; and a second
    call leaves what the first one left. *)
Theorem stopUpdating_cancels_and_is_idempotent (pollingInterval : option nat) (w : World) :
  (let started := startUpdating pollingInterval w in
   exists timer,
     intervalId (self started) = Some timer /\
     is_Some (scheduled (loop started) !! timer) /\
     scheduled (loop (stopUpdating started)) !! timer = None) /\
  (intervalId (self w) = None -> stopUpdating w = w) /\
  stopUpdating (stopUpdating w) = stopUpdating w.
Proof.
  split; [| split].
  - exists (next_timer (loop w)). split; [done |]. split.
    + rewrite startUpdating_scheduled, lookup_insert_eq. by eexists.
    + rewrite stopUpdating_scheduled, startUpdating_intervalId. apply lookup_delete_eq.
  - intros Hnone. unfold stopUpdating. by rewrite Hnone.
  - unfold stopUpdating at 1. rewrite stopUpdating_self.
    destruct (intervalId (self w)) as [id |] eqn:Hid; [| done].
    unfold stopUpdating. rewrite Hid. cbn. unfold clearInterval. cbn.
    f_equal. f_equal. apply delete_delete_eq.
Qed.

(** C10.  Two calls of [startUpdating] with no [stopUpdating] between them
    create two timers.  The instance remembers the second only:
    [stopUpdating] cancels that one, and the first stays scheduled whatever
    is called afterwards, so it goes on polling each time it fires. *)
Theorem second_startUpdating_leaks_first_timer
    (first second : option nat) (between afterwards : list Step) (w : World) :
  StopUpdating ∉ between ->
  let w1 := startUpdating first w in
  let w2 := startUpdating second (run between w1) in
  let w3 := run afterwards (stopUpdating w2) in
  exists t1 t2,
    intervalId (self w1) = Some t1 /\
    intervalId (self w2) = Some t2 /\
    t1 ≠ t2 /\
    scheduled (loop (stopUpdating w2)) !! t2 = None /\
    is_Some (scheduled (loop w3) !! t1) /\
    step (Fire t1) w3 = fetch w3.
Proof.
  intros Hno w1 w2 w3.
  assert (Hheld : held (next_timer (loop w)) (run between w1)).
  { apply held_run; [done |]. split.
    - subst w1. rewrite startUpdating_scheduled, lookup_insert_eq. by eexists.
    - subst w1. rewrite startUpdating_next_timer. lia. }
  assert (Hleak : leaked (next_timer (loop w)) (stopUpdating w2)).
  { apply (leaked_step _ StopUpdating). destruct Hheld as [Hsched Hlt]. split; [split |].
    - subst w2. rewrite startUpdating_scheduled, lookup_insert_ne by lia. done.
    - subst w2. rewrite startUpdating_next_timer. lia.
    - subst w2. rewrite startUpdating_intervalId. intros [= Heq]. lia. }
  apply (leaked_run _ afterwards) in Hleak. fold w3 in Hleak.
  destruct Hleak as [[Hsched _] _].
  exists (next_timer (loop w)), (next_timer (loop (run between w1))).
  split; [done |]. split; [done |]. split.
  { destruct Hheld as [_ Hlt]. lia. }
  split.
  { rewrite stopUpdating_scheduled. subst w2. rewrite startUpdating_intervalId.
    apply lookup_delete_eq. }
  split; [done |].
  cbn [step]. by destruct (decide _).
Qed.

End Polling.

(** ** The gateway: rendering a fragment and answering for it *)

Section Gateway.

Context `{Config} `{Runtime}.

(** A name under which a fragment is stored reads as that fragment. *)
Lemma registered_entry (g : GatewayBFF.t) (fragmentName : string) (fragment : FragmentBFF.t) :
  GatewayBFF.fragments g !! fragmentName = Some fragment ->
  GatewayBFF.registered g fragmentName = Own fragment.
Proof. intros Hreg. unfold GatewayBFF.registered, read_built. by rewrite Hreg. Qed.



Lemma renderFragment_registered (g : GatewayBFF.t) (fragment : FragmentBFF.t)
    (fragmentName : string) (mode : FRAGMENT_RENDER_MODES) (partial : string)
    (cookieValue : option string) :
  GatewayBFF.fragments g !! fragmentName = Some fragment ->
  GatewayBFF.renderFragment g fragmentName (Some mode) partial cookieValue
  = match FragmentBFF.render fragment ∅ cookieValue with
    | Resolved fragmentContent => Resolved (GatewayBFF.rendered g fragmentName mode partial fragmentContent)
    | Rejected e => Rejected e
    end.
Proof.
  intros Hreg. unfold GatewayBFF.renderFragment. rewrite (registered_entry _ _ _ Hreg).
  destruct (FragmentBFF.render fragment ∅ cookieValue) as [c | e]; cbn; [| done].
  by destruct mode.
Qed.

(** C3, as amended.  The handler of a fragment route answers a render that
    succeeded with status 200.  It sets no other status: when the render
    of the fragment fails, it has written no response when its promise
    rejects with the error of the render. *)
Theorem fragment_route_answers_200_or_nothing
    (g : GatewayBFF.t) (fragmentConfig : IFragmentBFF) (fragment : FragmentBFF.t)
    (req : Request) :
  GatewayBFF.fragments g !! fragment_name fragmentConfig = Some fragment ->
  let own := FragmentBFF.render fragment ∅ (cookies req !! testCookie fragmentConfig) in
  let answer := GatewayBFF.fragment_route g fragmentConfig req in
  (forall fragmentContent, own = Resolved fragmentContent ->
     exists r, answer = Sent r /\ status r = 200) /\
  (forall e, own = Rejected e -> answer = Unanswered e) /\
  (forall r, answer = Sent r -> status r = 200).
Proof.
  intros Hreg own answer. subst own answer. unfold GatewayBFF.fragment_route.
  rewrite (renderFragment_registered _ _ _ _ _ _ Hreg).
  destruct (FragmentBFF.render fragment ∅ _) as [c | e].
  - split; [| split].
    + intros _ _. destruct (GatewayBFF.requested_mode req); by eexists.
    + done.
    + intros r. by destruct (GatewayBFF.requested_mode req); intros [= <-].
  - split; [done |]. split; [by intros ? [= <-] | done].
Qed.

End Gateway.

(** ** Version selection by test cookie *)

Section Versions.

(** The api middleware: a cookie that names a configured version selects
    it, as does one that names a member the versions inherit; any other
    cookie selects the live version. *)
Lemma requestVersion_rule (cfg : Api.IApiConfig) (req : Api.ApiRequest) (v : string) :
  Api.cookies req !! Api.testCookie cfg = Some v ->
  Api.requestVersion cfg req
  = Some (if found (read (Api.versions cfg) v) then v else Api.liveVersion cfg).
Proof.
  intros Hcookie. unfold Api.requestVersion. rewrite Hcookie. cbn.
  by destruct (found _).
Qed.

(** The placeholder of a fragment follows the same rule. *)
Lemma placeholder_version_rule (f : FragmentBFF.t) (v : string) :
  v ≠ "" ->
  FragmentBFF.placeholder_version f (Some v)
  = if found (read (versions (FragmentBFF.config f)) v)
    then v else version (FragmentBFF.config f).
Proof.
  intros Hv. unfold FragmentBFF.placeholder_version, truthy_string.
  destruct (String.eqb_spec v ""); [done |]. done.
Qed.

(** The content of a fragment does not: a cookie that names neither a
    version with a handler nor an inherited member makes [render] reject
    for want of the version. *)
Lemma render_unknown_version_rejects (f : FragmentBFF.t) (req : jsobject) (v : string) :
  v ≠ "" ->
  read_built FragmentBFF.handler_members (FragmentBFF.handlers f) v = Absent ->
  FragmentBFF.render f req (Some v)
  = Rejected ("Failed to find fragment version. Fragment: "
              ++ fragment_name (FragmentBFF.config f) ++ ", Version: " ++ v).
Proof.
  intros Hv Hnone. unfold FragmentBFF.render, or_else.
  destruct (String.eqb_spec v ""); [done |]. by rewrite Hnone.
Qed.

(** The instance has a handler for the configured versions whose handler
    is configured or loads, and for no other. *)
Lemma prepareHandlers_lookup `{Runtime} (cfg : IFragmentBFF) (v : string) :
  FragmentBFF.prepareHandlers cfg !! v
  = ver ← versions cfg !! v;
    match FragmentBFF.load cfg v ver with
    | Resolved h => Some h
    | Rejected _ => None
    end.
Proof. unfold FragmentBFF.prepareHandlers. by rewrite map_lookup_imap. Qed.

Lemma omap_nil_inv {A B : Type} (f : A -> option B) (l : list A) (x : A) :
  omap f l = [] -> x ∈ l -> f x = None.
Proof.
  induction l as [| y l IH]; [by intros _ ?%elem_of_nil |].
  cbn. destruct (f y) eqn:Hy; [done |].
  intros Hnil [-> | Hin]%elem_of_cons; [done | by apply IH].
Qed.

(** A fragment that was constructed is the instance with a handler for
    every configured version. *)
Lemma construct_resolved `{Runtime} (cfg : IFragmentBFF) (f : FragmentBFF.t) :
  FragmentBFF.construct cfg = Resolved f ->
  f = FragmentBFF.new cfg /\
  forall v, is_Some (FragmentBFF.prepareHandlers cfg !! v) <-> is_Some (versions cfg !! v).
Proof.
  unfold FragmentBFF.construct.
  destruct (FragmentBFF.missing_modules cfg) as [| e l] eqn:Hmissing; [| done].
  intros [= <-]. split; [done |]. intros v. rewrite prepareHandlers_lookup.
  destruct (versions cfg !! v) as [ver |] eqn:Hv; cbn; [| done].
  split; [by eexists |]. intros _.
  assert (Hloaded := omap_nil_inv _ _ (v, ver) Hmissing).
  cbn in Hloaded. destruct (FragmentBFF.load cfg v ver); [by eexists |].
  by discriminate Hloaded; apply elem_of_map_to_list.
Qed.

(** A fragment all of whose versions carry their handler is constructed. *)
Lemma construct_configured `{Runtime} (cfg : IFragmentBFF) :
  (forall v ver, versions cfg !! v = Some ver -> is_Some (handler ver)) ->
  FragmentBFF.construct cfg = Resolved (FragmentBFF.new cfg).
Proof.
  intros Hall. unfold FragmentBFF.construct, FragmentBFF.missing_modules.
  assert (Hnil : forall l : list (string * IFragmentBFFVersion),
            (forall v ver, (v, ver) ∈ l -> is_Some (handler ver)) ->
            omap (fun '(v, ver) =>
                    match FragmentBFF.load cfg v ver with
                    | Resolved _ => None
                    | Rejected e => Some e
                    end) l = []).
  { induction l as [| [v ver] l IH]; [done |]. intros Hl. cbn.
    unfold FragmentBFF.load at 1.
    destruct (Hl v ver) as [h ->]; [by left |]. apply IH.
    intros v' ver' Hin. apply (Hl v' ver'). by right. }
  rewrite Hnil; [done |].
  intros v ver Hin%elem_of_map_to_list. by eapply Hall.
Qed.

End Versions.

(** ** The content client: failures, forwarded query, placeholders *)

Section Client.

Import FragmentStorefront.
Context `{Config} `{Runtime}.

(** [getContent] once the fragment has its descriptor and the route is
    there: one request, and the three ways it can end. *)
Lemma getContent_sent
    (net : Network) (f : t) (cfg : IExposeFragment) (attribs : option jsobject)
    (req : option CallerRequest) (route : string) :
  config f = Some cfg ->
  routeRequest f (default ∅ attribs) req = Resolved route ->
  getContent net f attribs req
  = let sent := Fetch (template (fragmentUrl f) ++ route)
                  (Some (requestConfiguration cfg req)) in
    let fallback :=
      {| trace := [sent; LogError ("Failed to get contents for fragment: " ++ name f)];
         outcome := Resolved failed |} in
    match net (template (fragmentUrl f) ++ route) (Some (requestConfiguration cfg req)) with
    | Resolved res =>
        match res_json res with
        | Resolved json =>
            {| trace := [sent];
               outcome := Resolved {| status := res_status res; html := json |} |}
        | Rejected _ => fallback
        end
    | Rejected _ => fallback
    end.
Proof.
  intros Hcfg Hroute. unfold getContent. rewrite Hcfg, Hroute.
  unfold io_catch, fetch, settled, mbind, io_bind; cbn.
  destruct (net _ _) as [res | e]; cbn; [| done].
  by destruct (res_json res).
Qed.

(** [getContent] when the route cannot be computed: nothing is sent or
    logged, and the promise rejects. *)
Lemma getContent_unsent
    (net : Network) (f : t) (cfg : IExposeFragment) (attribs : option jsobject)
    (req : option CallerRequest) (e : string) :
  config f = Some cfg ->
  routeRequest f (default ∅ attribs) req = Rejected e ->
  getContent net f attribs req = {| trace := []; outcome := Rejected e |}.
Proof. intros Hcfg Hroute. unfold getContent. by rewrite Hcfg, Hroute. Qed.

(** C2.  Without a descriptor [getContent] resolves to status 500 with no
    partials, and sends nothing.  With one, once the request is on its way
    the call always resolves: to that same result when the request times
    out or the transport fails (the fetch rejects), and when the body is
    not JSON. *)
Theorem getContent_failures_resolve_to_500
    (net : Network) (f : t) (attribs : option jsobject) (req : option CallerRequest) :
  let call := getContent net f attribs req in
  (config f = None ->
     outcome call = Resolved {| status := 500; html := ∅ |} /\ requests (trace call) = []) /\
  (forall cfg route, config f = Some cfg ->
     routeRequest f (default ∅ attribs) req = Resolved route ->
     let answer := net (template (fragmentUrl f) ++ route)
                     (Some (requestConfiguration cfg req)) in
     (exists result, outcome call = Resolved result) /\
     (forall e, answer = Rejected e ->
        outcome call = Resolved {| status := 500; html := ∅ |}) /\
     (forall res e, answer = Resolved res -> res_json res = Rejected e ->
        outcome call = Resolved {| status := 500; html := ∅ |})).
Proof.
  intros call. subst call. split.
  - intros Hcfg. unfold getContent. by rewrite Hcfg.
  - intros cfg route Hcfg Hroute answer. subst answer.
    rewrite (getContent_sent _ _ _ _ _ _ Hcfg Hroute). cbn zeta.
    split; [| split].
    + destruct (net _ _) as [res | e]; [| by eexists].
      destruct (res_json res); by eexists.
    + by intros e ->.
    + by intros res e -> ->.
Qed.

(** The five [delete]s remove their keys and leave every other key. *)
Lemma strip_lookup (query : jsobject) (k : string) :
  strip query !! k
  = if bool_decide (k ∈ ["from"; "name"; "partial"; "primary"; "shouldwait"])
    then None else query !! k.
Proof.
  unfold strip. case_bool_decide as Hk.
  - rewrite !elem_of_cons, elem_of_nil in Hk.
    destruct Hk as [-> | [-> | [-> | [-> | [-> | []]]]]];
      by repeat (rewrite lookup_delete_eq || rewrite lookup_delete_ne by done).
  - assert (Hne : forall x, x ∈ ["from"; "name"; "partial"; "primary"; "shouldwait"] -> x ≠ k)
      by (by intros x Hx ->).
    rewrite !lookup_delete_ne by (apply Hne; set_solver). done.
Qed.

(** The url of a request that has one is parsed. *)
Lemma parsedRequest_url (r : CallerRequest) (parsed : ParsedUrl) :
  url r ≠ "" ->
  url_parse (url r) = Resolved parsed ->
  parsedRequest (Some r) = Resolved (Some parsed).
Proof.
  intros Hurl Hparsed. unfold parsedRequest, truthy_string.
  destruct (String.eqb_spec (url r) ""); [done |]. by rewrite Hparsed.
Qed.

(** What the forwarded query holds under each key. *)
Lemma forwarded_query_lookup (attribs : jsobject) (req : option CallerRequest) (k : string) :
  forwarded_query attribs req !! k
  = if bool_decide (k ∈ ["from"; "name"; "partial"; "primary"; "shouldwait"])
    then None
    else match parsedRequest req with
         | Resolved (Some parsed) =>
             match parsed_query parsed !! k with
             | Some v => Some v
             | None => initial_query attribs !! k
             end
         | _ => initial_query attribs !! k
         end.
Proof.
  unfold forwarded_query. rewrite strip_lookup.
  case_bool_decide; [done |].
  destruct (parsedRequest req) as [[parsed |] | e]; [| done | done].
  rewrite lookup_union.
  destruct (parsed_query parsed !! k), (initial_query attribs !! k); done.
Qed.

Lemma render_mode_is_not_stripped :
  "__renderMode" ∉ ["from"; "name"; "partial"; "primary"; "shouldwait"].
Proof. rewrite !elem_of_cons, elem_of_nil. intros [? | [? | [? | [? | [? | []]]]]]; done. Qed.

(** C5, as amended.  When the caller's request is attached and its url
    parses with a path, the query [getContent] sends to the fragment holds
    none of [from], [name], [partial], [primary], [shouldwait]; it holds
    every other parameter of the caller's query string with the caller's
    value; and it always holds the render-mode selector [__renderMode],
    with the caller's value if the caller sent one and [stream]
    otherwise. *)
Theorem getContent_forwards_query_less_identity_keys
    (net : Network) (f : t) (cfg : IExposeFragment) (attribs : jsobject) (r : CallerRequest)
    (parsed : ParsedUrl) (path : string) :
  config f = Some cfg ->
  url r ≠ "" ->
  url_parse (url r) = Resolved parsed ->
  pathname parsed = Some path ->
  let theirs := parsed_query parsed in
  let sent := forwarded_query attribs (Some r) in
  requests (trace (getContent net f (Some attribs) (Some r)))
    = [ template (fragmentUrl f)
        ++ remove_first ("/" ++ name f) path
        ++ "?" ++ querystring_stringify sent ] /\
  (forall k, k ∈ ["from"; "name"; "partial"; "primary"; "shouldwait"] -> sent !! k = None) /\
  (forall k v, k ∉ ["from"; "name"; "partial"; "primary"; "shouldwait"] ->
     theirs !! k = Some v -> sent !! k = Some v) /\
  sent !! "__renderMode" = Some (default (JStr "stream") (theirs !! "__renderMode")).
Proof.
  intros Hcfg Hurl Hparse Hpath theirs sent.
  assert (Hparsed := parsedRequest_url r parsed Hurl Hparse).
  assert (Hroute : routeRequest f attribs (Some r)
                   = Resolved (remove_first ("/" ++ name f) path
                               ++ "?" ++ querystring_stringify sent)).
  { unfold routeRequest. rewrite Hparsed. cbn. by rewrite Hpath. }
  split; [| split; [| split]].
  - rewrite (getContent_sent net f cfg (Some attribs) (Some r) _ Hcfg Hroute). cbn zeta.
    destruct (net _ _) as [res | e]; [| done]. by destruct (res_json res).
  - intros k Hk. subst sent. rewrite forwarded_query_lookup. by rewrite bool_decide_true.
  - intros k v Hk Hv. subst sent theirs. rewrite forwarded_query_lookup, Hparsed.
    rewrite bool_decide_false by done. by rewrite Hv.
  - subst sent theirs. rewrite forwarded_query_lookup, Hparsed.
    rewrite bool_decide_false by apply render_mode_is_not_stripped.
    destruct (parsed_query _ !! "__renderMode"); [done |].
    unfold initial_query. by rewrite lookup_insert_eq.
Qed.

(** C7.  [getPlaceholder] sends a request only for a fragment whose
    descriptor declares a placeholder: without a descriptor, or with one
    that does not declare it, the call resolves to the empty string and no
    request leaves; with one that declares it, the one request sent is the
    one for the placeholder. *)
Theorem getPlaceholder_fetches_only_when_declared (net : Network) (f : t) :
  let call := getPlaceholder net f in
  (config f = None ->
     outcome call = Resolved "" /\ requests (trace call) = []) /\
  (forall cfg, config f = Some cfg ->
     render_placeholder (ef_render cfg) ≠ Some true ->
     outcome call = Resolved "" /\ requests (trace call) = []) /\
  (forall cfg, config f = Some cfg ->
     render_placeholder (ef_render cfg) = Some true ->
     requests (trace call) = [ template (fragmentUrl f) ++ "/placeholder" ]).
Proof.
  intros call. subst call. unfold getPlaceholder. split; [| split].
  - by intros ->.
  - intros cfg -> Hno.
    destruct (render_placeholder (ef_render cfg)) as [[|] |]; done.
  - intros cfg -> ->. cbn.
    unfold io_catch, fetch, mbind, io_bind; cbn.
    destruct (net _ None) as [res | e]; cbn; [| done].
    destruct (res_text res); done.
Qed.

End Client.

(** ** The properties on the sample configurations *)

Section OnSamples.

Import Samples.
#[local] Existing Instance sample_config.
#[local] Existing Instance sample_runtime.

Example remove_first_fragment_prefix : remove_first "/product" "/product/detail" = "/detail".
Proof. reflexivity. Qed.

Example remove_first_only_first : remove_first "/a" "/b/a/a" = "/b/a".
Proof. reflexivity. Qed.

Example remove_first_absent : remove_first "/product" "/detail" = "/detail".
Proof. reflexivity. Qed.

(** [new GatewayBFF] on the sample configuration gives the sample
    gateway. *)
Example new_browsing_gateway :
  GatewayBFF.new (browsing product_handler) = Resolved (browsing_gateway product_handler).
Proof. vm_compute. reflexivity. Qed.

(** A first poll, then a poll with another hash: ready, then updated. *)
Example ready_then_updated :
  let first := {| addr := 1; deref := {| IExposeConfig.fragments := ∅; IExposeConfig.hash := "disabled" |} |} in
  let next := {| addr := 2; deref := {| IExposeConfig.fragments := ∅; IExposeConfig.hash := "enabled" |} |} in
  map GatewayStorefrontInstance.event
    (GatewayStorefrontInstance.events
       (GatewayStorefrontInstance.self
          (GatewayStorefrontInstance.run
             [GatewayStorefrontInstance.Settled (Resolved first);
              GatewayStorefrontInstance.Settled (Resolved first);
              GatewayStorefrontInstance.Settled (Rejected "ECONNREFUSED");
              GatewayStorefrontInstance.Settled (Resolved next)]
             browsing_world)))
  = [GATEWAY_READY; GATEWAY_UPDATED].
Proof. vm_compute. reflexivity. Qed.

(** C1 on samples: a first catalog, a catalog under another hash, and a
    catalog under the stored hash. *)
Lemma poll_ready_updated_or_unchanged_sample :
  let fresh := GatewayStorefrontInstance.self browsing_world in
  (GatewayStorefrontInstance.config fresh = None /\
   GatewayStorefrontInstance.config
     (GatewayStorefrontInstance.settle (Resolved catalog_stored) fresh)
     = Some catalog_stored) /\
  (IExposeConfig.hash (deref catalog_changed) ≠ IExposeConfig.hash (deref catalog_stored) /\
   GatewayStorefrontInstance.config
     (GatewayStorefrontInstance.settle (Resolved catalog_changed) browsing_instance)
     = Some catalog_changed) /\
  (IExposeConfig.hash (deref catalog_polled) = IExposeConfig.hash (deref catalog_stored) /\
   addr <$> GatewayStorefrontInstance.config
              (GatewayStorefrontInstance.settle (Resolved catalog_polled) browsing_instance)
     = Some 1).
Proof.
  intros fresh.
  assert (Hne : IExposeConfig.hash (deref catalog_changed)
                ≠ IExposeConfig.hash (deref catalog_stored)) by discriminate.
  split; [| split].
  - split; [reflexivity |].
    destruct (poll_ready_updated_or_unchanged catalog_stored fresh) as (Hfirst & _).
    exact (proj1 (Hfirst eq_refl)).
  - split; [exact Hne |].
    destruct (poll_ready_updated_or_unchanged catalog_changed browsing_instance)
      as (_ & Hupdated & _).
    apply (Hupdated catalog_stored eq_refl Hne).
  - split; [reflexivity |].
    destruct (poll_ready_updated_or_unchanged catalog_polled browsing_instance)
      as (_ & _ & Hsame).
    apply (Hsame catalog_stored eq_refl eq_refl).
Defined.

(** C6 on a sample: the catalog under another hash replaces the stored
    one. *)
Lemma change_is_difference_of_carried_hash_sample :
  GatewayStorefrontInstance.settle (Resolved catalog_changed) browsing_instance
  = GatewayStorefrontInstance.emit GATEWAY_UPDATED
      (GatewayStorefrontInstance.set_config catalog_changed browsing_instance).
Proof.
  destruct (change_is_difference_of_carried_hash (browsing product_handler)
              catalog_changed catalog_stored browsing_instance) as [_ Hpoll].
  rewrite (Hpoll eq_refl). reflexivity.
Defined.

(** C8 on a sample: polling started on the fresh instance, then stopped
    twice. *)
Lemma stopUpdating_cancels_and_is_idempotent_sample :
  let started := GatewayStorefrontInstance.startUpdating None browsing_world in
  GatewayStorefrontInstance.intervalId (GatewayStorefrontInstance.self browsing_world) = None /\
  GatewayStorefrontInstance.stopUpdating browsing_world = browsing_world /\
  GatewayStorefrontInstance.stopUpdating (GatewayStorefrontInstance.stopUpdating started)
  = GatewayStorefrontInstance.stopUpdating started.
Proof.
  intros started. split; [reflexivity |]. split.
  - destruct (stopUpdating_cancels_and_is_idempotent None browsing_world)
      as (_ & Hnever & _).
    exact (Hnever eq_refl).
  - destruct (stopUpdating_cancels_and_is_idempotent None started) as (_ & _ & Htwice).
    exact Htwice.
Defined.

(** C6 does not hold as the specification states it: the polled catalog
    differs from the stored one in the descriptor of a fragment and carries
    the same hash; the poll changes nothing and notifies nobody. *)
Lemma same_hash_hides_content_change :
  IExposeConfig.fragments (deref catalog_polled) !! "product"
    ≠ IExposeConfig.fragments (deref catalog_stored) !! "product" /\
  GatewayStorefrontInstance.settle (Resolved catalog_polled) browsing_instance
    = browsing_instance.
Proof.
  split.
  - vm_compute. discriminate.
  - vm_compute. reflexivity.
Qed.

(** C10 on a sample: the timer of the first [startUpdating] survives the
    [stopUpdating] that follows the second, and every later call. *)
Lemma second_startUpdating_leaks_first_timer_sample :
  let between := [GatewayStorefrontInstance.Fire 0;
                  GatewayStorefrontInstance.Settled (Resolved catalog_stored)] in
  let afterwards := [GatewayStorefrontInstance.StopUpdating;
                     GatewayStorefrontInstance.StartUpdating None;
                     GatewayStorefrontInstance.StopUpdating] in
  (GatewayStorefrontInstance.StopUpdating ∉ between) /\
  is_Some
    (scheduled
       (GatewayStorefrontInstance.loop
          (GatewayStorefrontInstance.run afterwards
             (GatewayStorefrontInstance.stopUpdating
                (GatewayStorefrontInstance.startUpdating (Some 500)
                   (GatewayStorefrontInstance.run between
                      (GatewayStorefrontInstance.startUpdating None browsing_world))))))
     !! 0).
Proof.
  intros between afterwards.
  assert (Hno : GatewayStorefrontInstance.StopUpdating ∉ between).
  { subst between. rewrite !elem_of_cons, elem_of_nil. intros [? | [? | []]]; discriminate. }
  split; [exact Hno |].
  destruct (second_startUpdating_leaks_first_timer None (Some 500) between afterwards
              browsing_world Hno) as (t1 & t2 & Ht1 & _ & _ & _ & Hsched & _).
  injection Ht1 as <-. exact Hsched.
Defined.



(** C3 does not hold as the specification states it: the data stage of the
    fragment fails, so its render fails; the handler of its route answers
    with no status at all, a fortiori with none outside 2xx. *)
Lemma failed_render_sets_no_status :
  FragmentBFF.render (FragmentBFF.new (product failing_handler)) ∅
    (cookies stream_request !! testCookie (product failing_handler))
    = Rejected "product service is down" /\
  ~ (exists r,
       GatewayBFF.fragment_route (browsing_gateway failing_handler) (product failing_handler)
         stream_request = Sent r /\
       ~ (200 <= status r < 300)).
Proof.
  split.
  - vm_compute. reflexivity.
  - intros (r & Hsent & _). vm_compute in Hsent. discriminate.
Qed.

(** C3 on a sample: the render succeeds and the answer has status 200. *)
Lemma fragment_route_answers_200_sample :
  GatewayBFF.fragments (browsing_gateway product_handler) !! "product"
    = Some (FragmentBFF.new (product product_handler)) /\
  exists r,
    GatewayBFF.fragment_route (browsing_gateway product_handler) (product product_handler)
      stream_request = Sent r /\
    status r = 200.
Proof.
  assert (Hreg : GatewayBFF.fragments (browsing_gateway product_handler)
                   !! fragment_name (product product_handler)
                 = Some (FragmentBFF.new (product product_handler)))
    by (vm_compute; reflexivity).
  split; [exact Hreg |].
  destruct (fragment_route_answers_200_or_nothing _ _ _ stream_request Hreg) as [Hok _].
  apply (Hok {[ "main" := "Product Content" ]}). vm_compute. reflexivity.
Defined.

(** C4, where the code departs from the specification.  The cookie names
    version 2.0.0, which is not configured.  The api middleware and the placeholder
    of the fragment fall back to the live version 1.0.0; the content of the
    fragment is not rendered with the live version: [render] rejects, and
    the route sends no answer. *)
Theorem unknown_version_cookie_fails_fragment_content :
  versions (product product_handler) !! "2.0.0" = None /\
  Api.requestVersion basket_api
    {| Api.url := "/items"; Api.cookies := {[ "basket-version" := "2.0.0" ]} |}
    = Some "1.0.0" /\
  FragmentBFF.placeholder_version (FragmentBFF.new (product product_handler)) (Some "2.0.0")
    = "1.0.0" /\
  FragmentBFF.render (FragmentBFF.new (product product_handler)) ∅ (Some "2.0.0")
    = Rejected "Failed to find fragment version. Fragment: product, Version: 2.0.0" /\
  GatewayBFF.fragment_route (browsing_gateway product_handler) (product product_handler)
    {| query := ∅; cookies := {[ "product-version" := "2.0.0" ]} |}
    = Unanswered "Failed to find fragment version. Fragment: product, Version: 2.0.0".
Proof. repeat split; vm_compute; reflexivity. Qed.

(** With the configured version in the cookie, all of them agree. *)
Example known_version_cookie_selects_it :
  Api.requestVersion basket_api
    {| Api.url := "/items"; Api.cookies := {[ "basket-version" := "1.0.0" ]} |}
    = Some "1.0.0" /\
  FragmentBFF.render (FragmentBFF.new (product product_handler)) ∅ (Some "1.0.0")
    = Resolved {[ "main" := "Product Content" ]}.
Proof. split; vm_compute; reflexivity. Qed.

(** C5 does not hold as the specification states it: the query sent for
    the sample page request holds the render-mode selector. *)
Lemma forwarded_query_holds_render_mode :
  FragmentStorefront.forwarded_query ∅ (Some page_request) !! "__renderMode"
    = Some (JStr "stream") /\
  ~ (forall k, k ∈ ["__renderMode"; "from"; "name"; "partial"; "primary"; "shouldwait"] ->
       FragmentStorefront.forwarded_query ∅ (Some page_request) !! k = None).
Proof.
  assert (Hmode : FragmentStorefront.forwarded_query ∅ (Some page_request) !! "__renderMode"
                  = Some (JStr "stream")) by (vm_compute; reflexivity).
  split; [exact Hmode |].
  intros Hnone. specialize (Hnone "__renderMode"). rewrite Hmode in Hnone.
  discriminate Hnone. by left.
Qed.

(** C5 on a sample: [from] and [primary] are dropped, [color] is kept,
    the attribute [id] is added, and the render mode is sent. *)
Lemma getContent_forwards_query_sample :
  let sent := FragmentStorefront.forwarded_query {[ "id" := JNum 7 ]} (Some page_request) in
  FragmentStorefront.url page_request ≠ "" /\
  sent !! "from" = None /\
  sent !! "primary" = None /\
  sent !! "color" = Some (JStr "red") /\
  sent !! "__renderMode" = Some (JStr "stream").
Proof.
  intros sent.
  assert (Hurl : FragmentStorefront.url page_request ≠ "") by discriminate.
  assert (Hparse : url_parse (FragmentStorefront.url page_request)
                   = Resolved page_request_parsed) by reflexivity.
  destruct (getContent_forwards_query_less_identity_keys network_up
              (product_configured plain_render) (descriptor plain_render)
              {[ "id" := JNum 7 ]} page_request page_request_parsed "/product/"
              eq_refl Hurl Hparse eq_refl)
    as (_ & Hdropped & Hkept & Hmode).
  split; [exact Hurl |].
  split; [apply Hdropped; set_solver |].
  split; [apply Hdropped; set_solver |].
  split; [| exact Hmode].
  apply Hkept; [| vm_compute; reflexivity].
  rewrite !elem_of_cons, elem_of_nil. intros [? | [? | [? | [? | [? | []]]]]]; discriminate.
Defined.

(** C2 on samples: a fragment without descriptor, and a request that times
    out. *)
Lemma getContent_failures_resolve_to_500_sample :
  FragmentStorefront.config product_unconfigured = None /\
  FragmentStorefront.outcome
    (FragmentStorefront.getContent network_up product_unconfigured None (Some page_request))
    = Resolved {| FragmentStorefront.status := 500; FragmentStorefront.html := ∅ |} /\
  FragmentStorefront.outcome
    (FragmentStorefront.getContent network_down (product_configured plain_render) None
       (Some page_request))
    = Resolved {| FragmentStorefront.status := 500; FragmentStorefront.html := ∅ |}.
Proof.
  split; [reflexivity |]. split.
  - destruct (getContent_failures_resolve_to_500 network_up product_unconfigured None
                (Some page_request)) as (Hnone & _).
    exact (proj1 (Hnone eq_refl)).
  - destruct (getContent_failures_resolve_to_500 network_down
                (product_configured plain_render) None (Some page_request))
      as (_ & Hsent).
    assert (Hroute : FragmentStorefront.routeRequest (product_configured plain_render) ∅
                       (Some page_request) = Resolved "/?__renderMode;color;")
      by (vm_compute; reflexivity).
    destruct (Hsent (descriptor plain_render) _ eq_refl Hroute) as (_ & Hdown & _).
    exact (Hdown "network timeout" eq_refl).
Defined.

(** C7 on samples: no descriptor, a descriptor without placeholder, a
    descriptor with one. *)
Lemma getPlaceholder_fetches_only_when_declared_sample :
  (FragmentStorefront.config product_unconfigured = None /\
   FragmentStorefront.requests
     (FragmentStorefront.trace (FragmentStorefront.getPlaceholder network_up product_unconfigured))
     = []) /\
  (render_placeholder plain_render ≠ Some true /\
   FragmentStorefront.requests
     (FragmentStorefront.trace
        (FragmentStorefront.getPlaceholder network_up (product_configured plain_render)))
     = []) /\
  (render_placeholder placeholder_render = Some true /\
   FragmentStorefront.requests
     (FragmentStorefront.trace
        (FragmentStorefront.getPlaceholder network_up (product_configured placeholder_render)))
     = ["http://localhost:4446/product/placeholder"]).
Proof.
  assert (Hplain : render_placeholder plain_render ≠ Some true) by discriminate.
  split; [| split].
  - split; [reflexivity |].
    destruct (getPlaceholder_fetches_only_when_declared network_up product_unconfigured)
      as (Hnone & _).
    exact (proj2 (Hnone eq_refl)).
  - split; [exact Hplain |].
    destruct (getPlaceholder_fetches_only_when_declared network_up
                (product_configured plain_render)) as (_ & Hnot & _).
    apply (Hnot (descriptor plain_render) eq_refl Hplain).
  - split; [reflexivity |].
    destruct (getPlaceholder_fetches_only_when_declared network_up
                (product_configured placeholder_render)) as (_ & _ & Hdeclared).
    apply (Hdeclared (descriptor placeholder_render) eq_refl eq_refl).
Defined.

(** The url the sample request is sent to. *)
Example getContent_sample_url :
  FragmentStorefront.requests
    (FragmentStorefront.trace
       (FragmentStorefront.getContent network_up (product_configured plain_render)
          (Some {[ "id" := JNum 7 ]}) (Some page_request)))
  = ["http://localhost:4446/product/?" ++ querystring_stringify
       ({[ "__renderMode" := JStr "stream"; "color" := JStr "red"; "id" := JNum 7 ]} : jsobject)].
Proof. vm_compute. reflexivity. Qed.

(** Failures of the sample fragment: no descriptor, and a dead network. *)
Example getContent_sample_failures :
  FragmentStorefront.outcome
    (FragmentStorefront.getContent network_up product_unconfigured None None)
    = Resolved {| FragmentStorefront.status := 500; FragmentStorefront.html := ∅ |} /\
  FragmentStorefront.outcome
    (FragmentStorefront.getContent network_down (product_configured plain_render) None
       (Some page_request))
    = Resolved {| FragmentStorefront.status := 500; FragmentStorefront.html := ∅ |} /\
  FragmentStorefront.outcome
    (FragmentStorefront.getContent network_up (product_configured plain_render) None
       (Some page_request))
    = Resolved {| FragmentStorefront.status := 200;
                  FragmentStorefront.html := {[ "main" := "Product Content" ]} |}.
Proof. repeat split; vm_compute; reflexivity. Qed.

(** Placeholders of the sample fragment. *)
Example getPlaceholder_samples :
  FragmentStorefront.getPlaceholder network_up (product_configured plain_render)
    = {| FragmentStorefront.trace :=
           [FragmentStorefront.LogError "Placeholder is not enabled for fragment"];
         FragmentStorefront.outcome := Resolved "" |} /\
  FragmentStorefront.getPlaceholder network_up (product_configured placeholder_render)
    = {| FragmentStorefront.trace :=
           [FragmentStorefront.Fetch "http://localhost:4446/product/placeholder" None];
         FragmentStorefront.outcome := Resolved "Product Placeholder" |}.
Proof. split; vm_compute; reflexivity. Qed.

End OnSamples.

(** * Further properties *)

(** ** The discovery client over whole runs *)

Section DiscoveryRuns.

Import GatewayStorefrontInstance.
Context `{Config}.

(** What every step keeps, every run keeps. *)
Lemma run_invariant (P : World -> Prop) :
  (forall s w, P w -> P (step s w)) ->
  forall steps w, P w -> P (run steps w).
Proof.
  intros Hstep steps. induction steps as [| s steps IH]; intros w Hw; [done |].
  cbn. by apply IH, Hstep.
Qed.

Lemma settle_keeps_identity (p : Poll) (g : t) :
  name (settle p g) = name g /\ url (settle p g) = url g /\
  intervalId (settle p g) = intervalId g.
Proof.
  destruct p as [data | e]; [| done]. cbn. unfold update.
  destruct (config g); [| done]. by destruct (decide _).
Qed.

Lemma step_keeps_identity (s : Step) (w : World) :
  name (self (step s w)) = name (self w) /\ url (self (step s w)) = url (self w).
Proof.
  destruct s as [i | | fired | p]; cbn [step].
  - done.
  - by rewrite stopUpdating_self.
  - by destruct (decide _).
  - cbn. by destruct (settle_keeps_identity p (self w)) as (? & ? & _).
Qed.

Lemma log_shape_settle (gw_name : string) (p : Poll) (g : t) :
  log_shape gw_name g -> log_shape gw_name (settle p g).
Proof.
  intros [Hname Hlog]. destruct p as [data | e]; [| done]. cbn. unfold update.
  destruct (config g) as [stored |] eqn:Hcfg.
  - destruct (decide _) as [Hne | Heq].
    + split; [done |]. cbn. destruct Hlog as [n Hn]. exists (S n).
      rewrite Hn, Hname. cbn. f_equal. symmetry. apply replicate_cons_app.
    + split; [done |]. by rewrite Hcfg.
  - split; [done |]. cbn. exists 0. by rewrite Hlog, Hname.
Qed.

Lemma log_shape_step (gw_name : string) (s : Step) (w : World) :
  log_shape gw_name (self w) -> log_shape gw_name (self (step s w)).
Proof.
  intros Hlog. destruct s as [i | | fired | p]; cbn [step].
  - done.
  - by rewrite stopUpdating_self.
  - by destruct (decide _).
  - by apply log_shape_settle.
Qed.

(** X1.  Whatever happens to an instance after its construction, it has
    emitted nothing as long as it holds no catalog, and otherwise one ready
    event first and updated events after it, all of them naming the
    gateway. *)
Theorem events_are_one_ready_then_updates
    (gw_name gw_url : string) (l : Loop) (steps : list Step) :
  let g := self (run steps (new gw_name gw_url l)) in
  match config g with
  | None => events g = []
  | Some _ =>
      exists n,
        events g = {| event := GATEWAY_READY; gateway := gw_name |}
                   :: replicate n {| event := GATEWAY_UPDATED; gateway := gw_name |}
  end.
Proof.
  cbn zeta.
  refine (proj2 (run_invariant (fun w => log_shape gw_name (self w)) _ steps _ _)).
  - intros s w. apply log_shape_step.
  - done.
Qed.

(** X2.  After a successful poll a catalog is stored, and its hash is the
    hash the poll carried, whether the poll replaced the catalog or not. *)
Theorem successful_poll_stores_polled_hash (data : jsref IExposeConfig.t) (g : t) :
  exists stored,
    config (settle (Resolved data) g) = Some stored /\
    IExposeConfig.hash (deref stored) = IExposeConfig.hash (deref data).
Proof.
  cbn [settle]. unfold update. destruct (config g) as [stored |] eqn:Hcfg.
  - destruct (decide _) as [Hne | Heq].
    + by exists data.
    + exists stored. split; [done |]. apply dec_stable. intros Hno. apply Heq. congruence.
  - by exists data.
Qed.

(** X3.  A poll that carries the hash of the poll before it changes
    nothing, even if it delivers another object with other fragments. *)
Theorem poll_after_poll_of_same_hash_is_noop
    (first second : jsref IExposeConfig.t) (g : t) :
  IExposeConfig.hash (deref second) = IExposeConfig.hash (deref first) ->
  settle (Resolved second) (settle (Resolved first) g) = settle (Resolved first) g.
Proof.
  intros Hsame. cbn [settle].
  destruct (config g) as [stored |] eqn:Hcfg.
  - destruct (decide (IExposeConfig.hash (deref first) = IExposeConfig.hash (deref stored)))
      as [Heq | Hne].
    + rewrite (update_unchanged _ _ _ Hcfg Heq).
      apply (update_unchanged _ stored); [done | congruence].
    + rewrite (update_changed _ _ _ Hcfg Hne).
      by apply (update_unchanged _ first).
  - rewrite (update_first _ _ Hcfg). by apply (update_unchanged _ first).
Qed.

(** X4.  Failed polls leave no trace: a run with its failed polls taken
    out ends in the same world. *)
Theorem failed_polls_change_nothing (steps : list Step) (w : World) :
  run (List.filter (fun s => negb (failed_poll s)) steps) w = run steps w.
Proof.
  revert w. induction steps as [| s steps IH]; intros w; [done |].
  cbn [List.filter]. destruct (failed_poll s) eqn:Hs; cbn [negb].
  - rewrite IH. cbn. f_equal.
    destruct s as [| | | [data | e]]; try discriminate. by destruct w.
  - cbn. apply IH.
Qed.

Lemma requested_run (gw_url : string) (steps : list Step) (w : World) (k : nat) :
  url (self w) = gw_url ->
  requested w = replicate k gw_url ->
  requested (run steps w) = replicate (k + ticks steps w) gw_url.
Proof.
  revert w k. induction steps as [| s steps IH]; intros w k Hurl Hk.
  { cbn. by rewrite Nat.add_0_r. }
  change (run (s :: steps) w) with (run steps (step s w)). cbn [ticks].
  assert (Hurl' : url (self (step s w)) = gw_url).
  { by destruct (step_keeps_identity s w) as [_ ->]. }
  destruct s as [i | | fired | p]; cbn [step] in *.
  - apply (IH _ k Hurl'). by rewrite <- Hk.
  - apply (IH _ k Hurl'). rewrite <- Hk. unfold stopUpdating.
    by destruct (intervalId (self w)).
  - destruct (decide _).
    + replace (k + (1 + ticks steps (fetch w))) with (S k + ticks steps (fetch w)) by lia.
      apply (IH _ (S k) Hurl'). unfold fetch. cbn [requested]. rewrite Hk, Hurl.
      symmetry. apply replicate_S_end.
    + by apply (IH _ k Hurl').
  - by apply (IH _ k Hurl').
Qed.

(** X5.  Every catalog request of an instance goes to the url it was
    constructed with: one leaves at construction, and one more at each
    tick of a scheduled timer, and no other. *)
Theorem catalog_requests_go_to_the_gateway_url
    (gw_name gw_url : string) (l : Loop) (steps : list Step) :
  requested (run steps (new gw_name gw_url l))
    = replicate (S (ticks steps (new gw_name gw_url l))) gw_url.
Proof. by apply (requested_run gw_url steps _ 1). Qed.

Lemma timers_fresh_step (s : Step) (w : World) : timers_fresh w -> timers_fresh (step s w).
Proof.
  intros Hfresh. destruct s as [i | | fired | p]; cbn [step]; intros timer.
  - rewrite startUpdating_scheduled, startUpdating_next_timer.
    destruct (decide (next_timer (loop w) = timer)) as [<- | Hne]; [lia |].
    rewrite lookup_insert_ne by done. intros Hs. specialize (Hfresh _ Hs). lia.
  - rewrite stopUpdating_scheduled. unfold stopUpdating.
    destruct (intervalId (self w)) as [id |]; [| apply Hfresh].
    cbn. intros [x Hx]. apply Hfresh. exists x.
    by apply lookup_delete_Some in Hx as [_ ?].
  - destruct (decide _); apply Hfresh.
  - apply Hfresh.
Qed.

Lemma quiet_run (steps : list Step) (w : World) :
  Forall quiet steps ->
  loop (run steps w) = loop w /\ intervalId (self (run steps w)) = intervalId (self w).
Proof.
  intros Hquiet. revert w. induction Hquiet as [| s steps Hs _ IH]; intros w; [done |].
  change (run (s :: steps) w) with (run steps (step s w)).
  destruct (IH (step s w)) as [-> ->].
  destruct s as [i | | fired | p]; try done; cbn [step].
  - by destruct (decide _).
  - cbn. by destruct (settle_keeps_identity p (self w)) as (_ & _ & ->).
Qed.

(** X6.  On an instance constructed on an idle event loop, a call of
    [startUpdating] followed, after any timer ticks and settled polls, by a
    call of [stopUpdating] leaves the timers that were scheduled before the
    pair, and a late tick of the stopped timer sends no request. *)
Theorem start_then_stop_restores_the_timers
    (gw_name gw_url : string) (before between : list Step) (pollingInterval : option nat) :
  Forall quiet between ->
  let w := run before (new gw_name gw_url empty_loop) in
  let stopped := stopUpdating (run between (startUpdating pollingInterval w)) in
  scheduled (loop stopped) = scheduled (loop w) /\
  intervalId (self stopped) = Some (next_timer (loop w)) /\
  step (Fire (next_timer (loop w))) stopped = stopped.
Proof.
  intros Hquiet w stopped.
  assert (Hfresh : timers_fresh w).
  { apply (run_invariant timers_fresh); [apply timers_fresh_step |].
    intros timer [x Hx]. cbn in Hx. by rewrite lookup_empty in Hx. }
  assert (Hnew : scheduled (loop w) !! next_timer (loop w) = None).
  { destruct (scheduled (loop w) !! next_timer (loop w)) eqn:Hs; [| done].
    assert (next_timer (loop w) < next_timer (loop w)) by (apply Hfresh; by eexists). lia. }
  destruct (quiet_run between (startUpdating pollingInterval w) Hquiet) as [Hloop Hid].
  assert (Hsched : scheduled (loop stopped) = scheduled (loop w)).
  { subst stopped. rewrite stopUpdating_scheduled, Hid, Hloop, startUpdating_intervalId.
    rewrite startUpdating_scheduled. by apply delete_insert_id. }
  split; [done |]. split.
  - subst stopped. by rewrite stopUpdating_self, Hid.
  - cbn [step]. rewrite Hsched, Hnew. destruct (decide _) as [[x Hx] |]; done.
Qed.

End DiscoveryRuns.

(** ** The gateway: construction and routes *)

Section GatewayConstruction.

Context `{Config} `{Runtime}.

(** An own property is what a read finds as [Own]. *)
Lemma read_own {A : Type} (o : gmap string A) (k : string) (a : A) :
  read o k = Own a <-> o !! k = Some a.
Proof.
  unfold read. destruct (o !! k) as [a' |].
  - split; by intros [= ->].
  - split; [| done]. by case_bool_decide.
Qed.

Lemma read_absent {A : Type} (o : gmap string A) (k : string) :
  read o k = Absent -> o !! k = None.
Proof. unfold read. by destruct (o !! k). Qed.

Lemma registered_own (g : GatewayBFF.t) (n : string) (fragment : FragmentBFF.t) :
  GatewayBFF.registered g n = Own fragment <-> GatewayBFF.fragments g !! n = Some fragment.
Proof.
  split; [| apply registered_entry].
  unfold GatewayBFF.registered, read_built.
  destruct (GatewayBFF.fragments g !! n) as [fragment' |]; [by intros [= ->] |].
  case_bool_decide; [done |].
  destruct (GatewayBFF.fragments g !! "__proto__"); [| done].
  by case_bool_decide.
Qed.

(** What a step of [createExposeConfig] that went well started from and
    added. *)
Lemma expose_resolved acc (fc : IFragmentBFF) fl reg :
  GatewayBFF.expose acc fc = Resolved (fl, reg) ->
  exists fl' reg' live,
    acc = Resolved (fl', reg') /\
    versions fc !! version fc = Some live /\
    fl = <[fragment_name fc :=
             {| ef_version := version fc; ef_render := render fc;
                ef_assets := assets live; ef_dependencies := dependencies live;
                ef_testCookie := testCookie fc |}]> fl' /\
    reg = <[fragment_name fc := FragmentBFF.new fc]> reg'.
Proof.
  unfold GatewayBFF.expose. destruct acc as [[fl' reg'] | e]; cbn; [| done].
  destruct (read (versions fc) (version fc)) as [live | inherited |] eqn:Hread; [| done | done].
  apply read_own in Hread.
  destruct (FragmentBFF.construct fc) as [fragmentBFF | e] eqn:Hconstruct; cbn; [| done].
  apply construct_resolved in Hconstruct as [-> _].
  intros [= <- <-]. by exists fl', reg', live.
Qed.

Lemma foldl_expose_names (l : list IFragmentBFF) fl reg :
  foldl GatewayBFF.expose (Resolved (∅, ∅)) l = Resolved (fl, reg) ->
  forall n,
    (is_Some (fl !! n) <-> n ∈ fragment_name <$> l) /\
    (is_Some (reg !! n) <-> n ∈ fragment_name <$> l).
Proof.
  revert fl reg. induction l as [| fc l IH] using rev_ind; intros fl reg.
  - intros [= <- <-] n. rewrite !lookup_empty. cbn. rewrite elem_of_nil.
    split; (split; [by intros [? ?] | done]).
  - rewrite foldl_snoc. intros Hstep n.
    apply expose_resolved in Hstep as (fl' & reg' & live & Hacc & _ & -> & ->).
    destruct (IH _ _ Hacc n) as [Hfl Hreg].
    rewrite fmap_snoc, elem_of_app, list_elem_of_singleton.
    destruct (decide (fragment_name fc = n)) as [<- | Hne].
    + rewrite !lookup_insert_eq. split; (split; [by right | by eexists]).
    + rewrite !lookup_insert_ne by done. rewrite Hfl, Hreg.
      split; (split; [by left | by intros [? | ?]]).
Qed.

Lemma foldl_expose_last (l1 l2 : list IFragmentBFF) (fc : IFragmentBFF) fl reg :
  fragment_name fc ∉ fragment_name <$> l2 ->
  foldl GatewayBFF.expose (Resolved (∅, ∅)) (l1 ++ fc :: l2)%list = Resolved (fl, reg) ->
  reg !! fragment_name fc = Some (FragmentBFF.new fc) /\
  exists live,
    versions fc !! version fc = Some live /\
    fl !! fragment_name fc
    = Some {| ef_version := version fc; ef_render := render fc;
              ef_assets := assets live; ef_dependencies := dependencies live;
              ef_testCookie := testCookie fc |}.
Proof.
  revert fl reg. induction l2 as [| x l2 IH] using rev_ind; intros fl reg Hlast.
  - rewrite foldl_snoc. intros Hstep.
    apply expose_resolved in Hstep as (fl' & reg' & live & _ & Hlive & -> & ->).
    rewrite !lookup_insert_eq. split; [done |]. by exists live.
  - rewrite fmap_snoc, not_elem_of_app, list_elem_of_singleton in Hlast.
    destruct Hlast as [Hl2 Hx].
    rewrite app_comm_cons, app_assoc, foldl_snoc. intros Hstep.
    apply expose_resolved in Hstep as (fl' & reg' & live' & Hacc & _ & -> & ->).
    rewrite !lookup_insert_ne by congruence.
    by apply IH.
Qed.

(** When the fold goes through, [versions] of every fragment has its live
    version. *)
Lemma foldl_expose_live (l : list IFragmentBFF) fl reg :
  foldl GatewayBFF.expose (Resolved (∅, ∅)) l = Resolved (fl, reg) ->
  forall fc, fc ∈ l -> is_Some (versions fc !! version fc).
Proof.
  revert fl reg. induction l as [| x l IH] using rev_ind; intros fl reg.
  - by intros _ fc ?%elem_of_nil.
  - rewrite foldl_snoc. intros Hstep fc Hin.
    apply expose_resolved in Hstep as (fl' & reg' & live & Hacc & Hlive & _ & _).
    apply elem_of_app in Hin as [Hin | ->%list_elem_of_singleton].
    + by apply (IH _ _ Hacc).
    + by eexists.
Qed.

(** How [new GatewayBFF] ends, in terms of the fold over the fragments. *)
Lemma new_resolved (cfg : IGatewayBFFConfiguration) (g : GatewayBFF.t) :
  GatewayBFF.new cfg = Resolved g ->
  GatewayBFF.config g = cfg /\
  foldl GatewayBFF.expose (Resolved (∅, ∅)) (gateway_fragments cfg)
  = Resolved (IExposeConfig.fragments (GatewayBFF.exposedConfig g), GatewayBFF.fragments g).
Proof.
  unfold GatewayBFF.new, GatewayBFF.createExposeConfig.
  destruct (foldl _ _ _) as [[fl reg] | e]; cbn; [| done].
  by intros [= <-].
Qed.

(** X7.  A gateway that was constructed serves exactly the fragments of
    its configuration: [this.fragments[n]] is a fragment if and only if
    the configuration has a fragment of the name [n], whatever [n]
    inherits; and the catalog has a property of its own under [n] if and
    only if the configuration has a fragment of that name and the name is
    not [__proto__], under which an assignment sets the prototype. *)
Theorem constructed_gateway_serves_configured_fragments
    (cfg : IGatewayBFFConfiguration) (g : GatewayBFF.t) (n : string) :
  GatewayBFF.new cfg = Resolved g ->
  ((exists fragment, GatewayBFF.registered g n = Own fragment)
     <-> n ∈ fragment_name <$> gateway_fragments cfg) /\
  (is_Some (own_properties (IExposeConfig.fragments (GatewayBFF.exposedConfig g)) !! n)
     <-> n ∈ fragment_name <$> gateway_fragments cfg /\ n ≠ "__proto__").
Proof.
  intros [_ Hfold]%new_resolved.
  destruct (foldl_expose_names _ _ _ Hfold n) as [Hfl Hreg]. split.
  - rewrite <- Hreg. unfold is_Some.
    split; intros [fragment Hfragment]; exists fragment; by apply registered_own.
  - rewrite <- Hfl. unfold own_properties, is_Some. split.
    + intros [d [Hne Hd]%lookup_delete_Some]. split; [by exists d | done].
    + intros [[d Hd] Hne]. exists d. by apply lookup_delete_Some.
Qed.

(** X8.  Constructing a gateway throws when the configuration has a
    fragment whose live version its [versions] do not have, neither as a
    version nor as a name every object inherits. *)
Theorem gateway_construction_fails_without_live_version
    (cfg : IGatewayBFFConfiguration) (fc : IFragmentBFF) :
  fc ∈ gateway_fragments cfg ->
  read (versions fc) (version fc) = Absent ->
  exists e, GatewayBFF.new cfg = Rejected e.
Proof.
  intros Hin Habsent%read_absent.
  destruct (GatewayBFF.new cfg) as [g | e] eqn:Hnew; [| by exists e].
  apply new_resolved in Hnew as [_ Hfold].
  destruct (foldl_expose_live _ _ _ Hfold fc Hin) as [live Hlive]. congruence.
Qed.

(** X9.  When the configuration names a fragment more than once, the last
    one is the one served: its handlers are registered, and the catalog
    lists its live version, render settings, test cookie, and the assets
    and dependencies of its live version. *)
Theorem last_fragment_of_a_name_is_served
    (cfg : IGatewayBFFConfiguration) (g : GatewayBFF.t)
    (earlier later : list IFragmentBFF) (fc : IFragmentBFF) :
  gateway_fragments cfg = (earlier ++ fc :: later)%list ->
  fragment_name fc ∉ fragment_name <$> later ->
  GatewayBFF.new cfg = Resolved g ->
  GatewayBFF.fragments g !! fragment_name fc = Some (FragmentBFF.new fc) /\
  exists live,
    versions fc !! version fc = Some live /\
    IExposeConfig.fragments (GatewayBFF.exposedConfig g) !! fragment_name fc
    = Some {| ef_version := version fc; ef_render := render fc;
              ef_assets := assets live; ef_dependencies := dependencies live;
              ef_testCookie := testCookie fc |}.
Proof.
  intros Hlist Hlast [_ Hfold]%new_resolved. rewrite Hlist in Hfold.
  by apply (foldl_expose_last earlier later).
Qed.

(** X10.  On a gateway that was constructed, every fragment route finds
    its fragment: the answer is decided by the render of the fragment
    alone.  A render that succeeds is answered with status 200, as JSON
    with its content type when the request asks for the stream, and for
    every other mode as the preview page, with no header of its own, of
    what the rendered partials have under the requested name, inherited
    members included.  The names of the test cookie and of the partial
    parameter are taken not to be names every object inherits. *)
Theorem fragment_routes_of_constructed_gateway
    (cfg : IGatewayBFFConfiguration) (g : GatewayBFF.t)
    (route : string) (fc : IFragmentBFF) (req : Request) :
  GatewayBFF.new cfg = Resolved g ->
  (route, fc) ∈ GatewayBFF.addFragmentRoutes g ->
  testCookie fc ∉ object_prototype_names ->
  PREVIEW_PARTIAL_QUERY_NAME ∉ object_prototype_names ->
  route = "/" ++ fragment_name fc ++ render_url (render fc) /\
  exists fragment,
    GatewayBFF.registered g (fragment_name fc) = Own fragment /\
    GatewayBFF.fragment_route g fc req
    = match FragmentBFF.render fragment ∅ (cookies req !! testCookie fc) with
      | Resolved fragmentContent =>
          match GatewayBFF.requested_mode req with
          | STREAM =>
              Sent {| status := 200;
                      headers := [("content-type", "application/json")];
                      body := JSON_stringify fragmentContent |}
          | PREVIEW =>
              Sent {| status := 200;
                      headers := [];
                      body := GatewayBFF.wrapFragmentContent g
                                (read fragmentContent
                                   (or_else (query req !! PREVIEW_PARTIAL_QUERY_NAME)
                                      DEFAULT_MAIN_PARTIAL))
                                (fragment_name fc) |}
          end
      | Rejected e => Unanswered e
      end.
Proof.
  intros Hnew Hroute _ _. unfold GatewayBFF.addFragmentRoutes in Hroute.
  apply list_elem_of_fmap in Hroute as (fc' & [= -> ->] & Hin).
  split; [done |].
  destruct (new_resolved _ _ Hnew) as [Hcfg _]. rewrite Hcfg in Hin.
  destruct (new_resolved _ _ Hnew) as [_ Hfold].
  destruct (foldl_expose_names _ _ _ Hfold (fragment_name fc')) as [_ [_ Hreg]].
  destruct Hreg as [fragment Hfragment]; [by apply list_elem_of_fmap_2 |].
  exists fragment. split; [by apply registered_own |].
  unfold GatewayBFF.fragment_route.
  rewrite (renderFragment_registered _ _ _ _ _ _ Hfragment).
  destruct (FragmentBFF.render fragment ∅ _) as [c | e]; [| done].
  by destruct (GatewayBFF.requested_mode req).
Qed.

End GatewayConstruction.

(** ** Versions of a fragment and of an api *)

Section VersionSelection.

Context `{Config} `{Runtime}.

(** X11.  For [render], a request without test cookie, one with an empty
    cookie and one whose cookie names the live version are the same. *)
Theorem render_without_cookie_is_live_version (f : FragmentBFF.t) (req : jsobject) :
  FragmentBFF.render f req (Some "") = FragmentBFF.render f req None /\
  FragmentBFF.render f req (Some (version (FragmentBFF.config f)))
  = FragmentBFF.render f req None.
Proof.
  split; [done |]. unfold FragmentBFF.render, or_else.
  by destruct (String.eqb_spec (version (FragmentBFF.config f)) "") as [-> | _].
Qed.

(** X12.  A test cookie pins the version as a change of the live version
    would: rendering with cookie [v] gives what the fragment configured
    with [v] as live version gives without cookie, error included. *)
Theorem render_with_cookie_is_render_of_that_live_version
    (cfg : IFragmentBFF) (req : jsobject) (v : string) :
  v ≠ "" ->
  FragmentBFF.render (FragmentBFF.new cfg) req (Some v)
  = FragmentBFF.render (FragmentBFF.new (with_live_version v cfg)) req None.
Proof.
  intros Hv. unfold FragmentBFF.render, or_else. cbn.
  by destruct (String.eqb_spec v "").
Qed.

(** X13.  The placeholder of a constructed fragment whose live version is
    configured.  A test cookie that names a configured version gets the
    placeholder of that version.  No cookie, an empty one, and one that
    names nothing the versions have or inherit get the placeholder of the
    live version.  A cookie that names no version but a member every
    object inherits, such as [constructor], is taken for a version and
    gets no placeholder: the call throws. *)
Theorem placeholder_falls_back_to_live_version
    (cfg : IFragmentBFF) (f : FragmentBFF.t) (req : jsobject) (cookie : option string) :
  FragmentBFF.construct cfg = Resolved f ->
  is_Some (versions cfg !! version cfg) ->
  let answer := FragmentBFF.placeholder f req cookie in
  (forall v, cookie = Some v -> v ≠ "" -> is_Some (versions cfg !! v) ->
     exists h,
       FragmentBFF.handlers f !! v = Some h /\
       answer = Resolved (IFragmentHandler.placeholder h tt)) /\
  ((forall v, cookie = Some v ->
      v = "" \/ (versions cfg !! v = None /\ v ∉ object_prototype_names)) ->
     exists h,
       FragmentBFF.handlers f !! version cfg = Some h /\
       answer = Resolved (IFragmentHandler.placeholder h tt)) /\
  (forall v, cookie = Some v -> v ≠ "" -> versions cfg !! v = None ->
     v ∈ object_prototype_names ->
     answer = Rejected "TypeError: handler.placeholder is not a function").
Proof.
  intros Hconstruct Hlive answer. subst answer.
  apply construct_resolved in Hconstruct as [-> Hhandlers].
  assert (Hown : forall v, is_Some (versions cfg !! v) ->
            exists h, FragmentBFF.handlers (FragmentBFF.new cfg) !! v = Some h /\
                      read_built FragmentBFF.handler_members
                        (FragmentBFF.handlers (FragmentBFF.new cfg)) v = Own h).
  { intros v [h Hh]%Hhandlers. exists h. split; [exact Hh |].
    unfold read_built. cbn in Hh |- *. by rewrite Hh. }
  assert (Htruthy : forall v, v ≠ "" -> truthy_string (Some v) = true).
  { intros v Hv. unfold truthy_string. cbn. by destruct (String.eqb_spec v ""). }
  split; [| split].
  - intros v -> Hv Hknown. destruct (Hown v Hknown) as (h & Hh & Hread).
    exists h. split; [exact Hh |].
    unfold FragmentBFF.placeholder, FragmentBFF.placeholder_version. cbn [FragmentBFF.config FragmentBFF.new].
    rewrite (Htruthy v Hv). destruct Hknown as [ver Hver].
    unfold read at 1. rewrite Hver. cbn [found andb]. by rewrite Hread.
  - intros Hcookie. destruct (Hown _ Hlive) as (h & Hh & Hread).
    exists h. split; [exact Hh |].
    assert (Hselected : FragmentBFF.placeholder_version (FragmentBFF.new cfg) cookie
                        = version cfg).
    { unfold FragmentBFF.placeholder_version. cbn [FragmentBFF.config FragmentBFF.new].
      destruct cookie as [v |]; [| done].
      destruct (Hcookie v eq_refl) as [-> | [Hnone Hname]]; [done |].
      unfold read. rewrite Hnone, bool_decide_false by done. cbn [found].
      by rewrite andb_false_r. }
    unfold FragmentBFF.placeholder. by rewrite Hselected, Hread.
  - intros v -> Hv Hnone Hname.
    unfold FragmentBFF.placeholder, FragmentBFF.placeholder_version. cbn [FragmentBFF.config FragmentBFF.new].
    rewrite (Htruthy v Hv). unfold read at 1. rewrite Hnone, bool_decide_true by done.
    cbn [found andb].
    assert (Hnot : FragmentBFF.handlers (FragmentBFF.new cfg) !! v = None).
    { destruct (FragmentBFF.handlers (FragmentBFF.new cfg) !! v) as [h |] eqn:Hh; [| done].
      destruct (proj1 (Hhandlers v)) as [ver Hver]; [by exists h | congruence]. }
    unfold read_built. by rewrite Hnot, bool_decide_true.
Qed.

(** X14.  When the selected version is configured and has an endpoint at
    the path of the request, the url the middleware rewrites, under the
    mount path of the api, is the path of the route registered for that
    endpoint of that version. *)
Theorem rewritten_url_is_a_registered_route
    (cfg : Api.IApiConfig) (req : Api.ApiRequest) (api : Api.IApiVersion)
    (endpoint : Api.IApiHandler) :
  Api.versions cfg !! template (Api.requestVersion cfg req) = Some api ->
  endpoint ∈ Api.endpoints api ->
  Api.url req = Api.path endpoint ->
  {| Api.route_path := "/" ++ API_ROUTE_PREFIX ++ "/" ++ Api.name cfg
                       ++ Api.url (Api.version_middleware cfg req);
     Api.route_method := Api.method endpoint;
     Api.route_version := template (Api.requestVersion cfg req);
     Api.route_controller := Api.controller endpoint |}
  ∈ Api.routes cfg.
Proof.
  intros Hversion Hendpoint Hurl. unfold Api.routes.
  apply list_elem_of_bind. exists (template (Api.requestVersion cfg req), api).
  split; [| by apply elem_of_map_to_list].
  apply list_elem_of_bind. exists endpoint. split; [| done].
  apply list_elem_of_singleton. cbn. by rewrite Hurl.
Qed.

End VersionSelection.

(** ** The content client: assets, routes, statuses *)

Section ClientFurther.

Import FragmentStorefront.
Context `{Config} `{Runtime}.

Lemma substring_all (s : string) : String.substring 0 (String.length s) s = s.
Proof. induction s as [| c s IH]; [done |]. cbn. by rewrite IH. Qed.

Lemma prefix_append (pat s : string) : String.prefix pat (pat ++ s) = true.
Proof.
  induction pat as [| c pat IH].
  - by destruct s.
  - change (String.prefix (String c pat) (String c (pat ++ s)) = true).
    cbn [String.prefix]. destruct (Ascii.ascii_dec c c); [exact IH | done].
Qed.

Lemma substring_after_prefix (pat s : string) :
  String.substring (String.length pat)
    (String.length (pat ++ s) - String.length pat) (pat ++ s) = s.
Proof.
  induction pat as [| c pat IH].
  - change ("" ++ s) with s. cbn [String.length]. rewrite Nat.sub_0_r. apply substring_all.
  - exact IH.
Qed.

(** [replace] removes a leading occurrence of the pattern. *)
Lemma remove_first_prefix (pat s : string) : remove_first pat (pat ++ s) = s.
Proof.
  assert (Hhead : forall t, String.prefix pat t = true ->
            remove_first pat t
            = String.substring (String.length pat) (String.length t - String.length pat) t).
  { intros t Ht. destruct t; cbn [remove_first]; by rewrite Ht. }
  rewrite Hhead by apply prefix_append. apply substring_after_prefix.
Qed.

(** X15.  For a page path under the name of the fragment, the route sent
    to the fragment is the rest of the path, followed by the forwarded
    query. *)
Theorem routeRequest_drops_the_fragment_name
    (f : t) (attribs : jsobject) (r : CallerRequest) (parsed : ParsedUrl) (rest : string) :
  url r ≠ "" ->
  url_parse (url r) = Resolved parsed ->
  pathname parsed = Some ("/" ++ name f ++ rest) ->
  routeRequest f attribs (Some r)
  = Resolved (rest ++ "?" ++ querystring_stringify (forwarded_query attribs (Some r))).
Proof.
  intros Hurl Hparse Hpath. unfold routeRequest.
  rewrite (parsedRequest_url r parsed Hurl Hparse). cbn. rewrite Hpath.
  change ("/" ++ name f ++ rest) with (("/" ++ name f) ++ rest).
  by rewrite remove_first_prefix.
Qed.

(** X16.  With a descriptor, [getContent] sends one request and no more
    once it has the route, whatever comes back; it logs an error exactly
    when it falls back to the result of a failure.  It has no route only
    for a caller request with a url that does not parse, or that parses
    without a path; then it sends and logs nothing, and its promise
    rejects. *)
Theorem getContent_sends_one_request_and_logs_failures
    (net : Network) (f : t) (cfg : IExposeFragment) (attribs : option jsobject)
    (req : option CallerRequest) :
  config f = Some cfg ->
  (forall route, routeRequest f (default ∅ attribs) req = Resolved route ->
     let sent := template (fragmentUrl f) ++ route in
     let answered :=
       match net sent (Some (requestConfiguration cfg req)) with
       | Resolved res => match res_json res with Resolved _ => true | Rejected _ => false end
       | Rejected _ => false
       end in
     trace (getContent net f attribs req)
     = Fetch sent (Some (requestConfiguration cfg req))
       :: (if answered then []
           else [LogError ("Failed to get contents for fragment: " ++ name f)])) /\
  (forall e, routeRequest f (default ∅ attribs) req = Rejected e ->
     getContent net f attribs req = {| trace := []; outcome := Rejected e |} /\
     exists r,
       req = Some r /\ url r ≠ "" /\
       (url_parse (url r) = Rejected e \/
        exists parsed, url_parse (url r) = Resolved parsed /\ pathname parsed = None)).
Proof.
  intros Hcfg. split.
  - intros route Hroute sent answered. subst sent answered.
    rewrite (getContent_sent _ _ _ _ _ _ Hcfg Hroute). cbn zeta.
    destruct (net _ _) as [res | e]; [| done]. by destruct (res_json res).
  - intros e Hroute. split; [by apply (getContent_unsent _ _ cfg) |].
    unfold routeRequest, parsedRequest in Hroute.
    destruct req as [r |]; [| done]. exists r. split; [done |].
    unfold truthy_string in Hroute. cbn in Hroute.
    destruct (String.eqb_spec (url r) "") as [Hempty | Hurl]; [done |].
    split; [done |].
    destruct (url_parse (url r)) as [parsed | e'] eqn:Hparse; cbn in Hroute.
    + right. exists parsed. split; [done |]. by destruct (pathname parsed).
    + left. congruence.
Qed.

(** X17.  The status of the fragment reaches the caller as it is, 2xx or
    not, together with the partials of the body. *)
Theorem getContent_passes_the_status_on
    (net : Network) (f : t) (cfg : IExposeFragment) (attribs : option jsobject)
    (req : option CallerRequest) (route : string) (res : HttpResponse) (json : partials) :
  config f = Some cfg ->
  routeRequest f (default ∅ attribs) req = Resolved route ->
  net (template (fragmentUrl f) ++ route)
      (Some (requestConfiguration cfg req)) = Resolved res ->
  res_json res = Resolved json ->
  outcome (getContent net f attribs req)
  = Resolved {| status := res_status res; html := json |}.
Proof.
  intros Hcfg Hroute Hnet Hjson.
  rewrite (getContent_sent _ _ _ _ _ _ Hcfg Hroute). cbn zeta. by rewrite Hnet, Hjson.
Qed.

(** X18.  After [update], the content request goes to the fragment url
    resolved against the asset url when one is given, and against the
    gateway url when it is missing or empty, followed by the route. *)
Theorem content_request_goes_to_the_resolved_fragment_url
    (net : Network) (f : t) (cfg : IExposeFragment) (gatewayUrl : string)
    (assetUrl : option string) (attribs : option jsobject) (req : option CallerRequest)
    (route : string) :
  routeRequest f (default ∅ attribs) req = Resolved route ->
  requests (trace (getContent net (update cfg gatewayUrl assetUrl f) attribs req))
  = [ url_resolve (or_else assetUrl gatewayUrl) (name f) ++ route ].
Proof.
  intros Hroute.
  assert (Hurl : fragmentUrl (update cfg gatewayUrl assetUrl f)
                 = Some (url_resolve (or_else assetUrl gatewayUrl) (name f))).
  { unfold update, or_else, truthy_string. cbn. destruct assetUrl as [a |]; [| done].
    by destruct (String.eqb a ""). }
  assert (Hroute' : routeRequest (update cfg gatewayUrl assetUrl f) (default ∅ attribs) req
                    = Resolved route) by exact Hroute.
  rewrite (getContent_sent net (update cfg gatewayUrl assetUrl f) cfg attribs req route
             eq_refl Hroute'). cbn zeta.
  rewrite Hurl. cbn [template].
  destruct (net _ _) as [res | e]; [| done]. by destruct (res_json res).
Qed.

(** X19.  The timeout of a content request is never zero when the default
    is not: a descriptor without timeout, or with timeout zero, gets the
    default, any other descriptor its own. *)
Theorem content_timeout_is_never_zero (cfg : IExposeFragment) (req : option CallerRequest) :
  DEFAULT_CONTENT_TIMEOUT ≠ 0 ->
  timeout (requestConfiguration cfg req) ≠ 0 /\
  (timeout (requestConfiguration cfg req) = DEFAULT_CONTENT_TIMEOUT \/
   render_timeout (ef_render cfg) = Some (timeout (requestConfiguration cfg req))).
Proof.
  intros Hdefault. unfold requestConfiguration. cbn.
  destruct (render_timeout (ef_render cfg)) as [[| ms] |]; split; auto.
Qed.

(** X20.  [getPlaceholder] always resolves; when its request fails, or the
    body cannot be read, it resolves to the empty string and logs the
    failure. *)
Theorem getPlaceholder_resolves_and_hides_failures (net : Network) (f : t) :
  (exists html, outcome (getPlaceholder net f) = Resolved html) /\
  (forall cfg e, config f = Some cfg ->
     render_placeholder (ef_render cfg) = Some true ->
     (net (template (fragmentUrl f) ++ "/placeholder") None = Rejected e \/
      exists res, net (template (fragmentUrl f) ++ "/placeholder") None = Resolved res /\
                  res_text res = Rejected e) ->
     getPlaceholder net f
     = {| trace := [ Fetch (template (fragmentUrl f) ++ "/placeholder") None;
                     LogError ("Failed to fetch placeholder for fragment: "
                               ++ template (fragmentUrl f) ++ "/placeholder") ];
          outcome := Resolved "" |}).
Proof.
  split.
  - unfold getPlaceholder. destruct (config f) as [cfg |]; [| by eexists].
    destruct (negb _); [by eexists |].
    unfold io_catch, fetch, mbind, io_bind; cbn.
    destruct (net _ None) as [res | e]; cbn; [| by eexists].
    destruct (res_text res); by eexists.
  - intros cfg e Hcfg Hdeclared Hfail. unfold getPlaceholder. rewrite Hcfg, Hdeclared. cbn.
    unfold io_catch, fetch, mbind, io_bind; cbn.
    destruct Hfail as [-> | (res & -> & Htext)]; cbn; [done |]. by rewrite Htext.
Qed.

Lemma find_asset_first (cfg : IExposeFragment) (asset : string)
    (before after : list IFileResourceAsset) (found : IFileResourceAsset) :
  ef_assets cfg = (before ++ found :: after)%list ->
  asset ∉ asset_name <$> before ->
  asset_name found = asset ->
  find_asset cfg asset = Some found.
Proof.
  unfold find_asset. intros -> Hbefore <-.
  induction before as [| a before IH]; cbn.
  - by rewrite String.eqb_refl.
  - rewrite fmap_cons, not_elem_of_cons in Hbefore. destruct Hbefore as [Hne Hbefore].
    destruct (String.eqb_spec (asset_name a) (asset_name found)); [congruence |].
    by apply IH.
Qed.

Lemma find_asset_declared (cfg : IExposeFragment) (asset : string) :
  is_Some (find_asset cfg asset) <-> asset ∈ asset_name <$> ef_assets cfg.
Proof.
  unfold find_asset. induction (ef_assets cfg) as [| a l IH]; cbn.
  - split; [by intros [? ?] | by intros ?%elem_of_nil].
  - rewrite elem_of_cons. destruct (String.eqb_spec (asset_name a) asset) as [<- | Hne].
    + split; [by left | by eexists].
    + rewrite IH. split; [by right | intros [? | ?]; [congruence | done]].
Qed.

(** X21.  The path of an asset is the fragment url, [/static/] and the
    file name of the first asset declared under the name. *)
Theorem getAssetPath_is_the_first_declared_file
    (f : t) (cfg : IExposeFragment) (asset : string)
    (before after : list IFileResourceAsset) (found : IFileResourceAsset) :
  config f = Some cfg ->
  ef_assets cfg = (before ++ found :: after)%list ->
  asset ∉ asset_name <$> before ->
  asset_name found = asset ->
  getAssetPath f asset
  = {| trace := [];
       outcome := Resolved (Some (template (fragmentUrl f) ++ "/static/"
                                  ++ asset_fileName found)) |}.
Proof.
  intros Hcfg Hassets Hbefore Hname. unfold getAssetPath.
  by rewrite Hcfg, (find_asset_first _ _ _ _ _ Hassets Hbefore Hname).
Qed.

(** X22.  [getAssetPath] returns, and never throws: a path exactly for
    the assets the descriptor declares, and [null] for any other name and
    without descriptor, which it logs as an error. *)
Theorem getAssetPath_knows_declared_assets_only (f : t) (asset : string) :
  exists result,
    outcome (getAssetPath f asset) = Resolved result /\
    (is_Some result <->
       exists cfg, config f = Some cfg /\ asset ∈ asset_name <$> ef_assets cfg) /\
    (result = None <-> exists message, trace (getAssetPath f asset) = [LogError message]).
Proof.
  unfold getAssetPath. destruct (config f) as [cfg |].
  - destruct (find_asset cfg asset) as [found |] eqn:Hfind.
    + eexists. split; [done |]. split.
      * split; [| by eexists]. intros _. exists cfg. split; [done |].
        apply find_asset_declared. by rewrite Hfind.
      * split; [done | by intros [? [=]]].
    + eexists. split; [done |]. split.
      * split; [by intros [? [=]] |]. intros (cfg' & [= <-] & Hin).
        apply find_asset_declared in Hin as [? Hin]. congruence.
      * split; [by eexists | done].
  - eexists. split; [done |]. split.
    + split; [by intros [? [=]] | by intros (? & [=] & _)].
    + split; [by eexists | done].
Qed.

(** X23.  [getAsset] requests the path [getAssetPath] gives, and sends
    nothing when there is none. *)
Theorem getAsset_requests_the_asset_path (net : Network) (f : t) (asset : string) :
  requests (trace (getAsset net f asset))
  = match outcome (getAssetPath f asset) with
    | Resolved (Some path) => [path]
    | _ => []
    end.
Proof.
  unfold getAsset, getAssetPath. destruct (config f) as [cfg |]; [| done].
  destruct (find_asset cfg asset) as [found |]; [| done].
  unfold io_catch, fetch, mbind, io_bind; cbn.
  destruct (net _ None) as [res | e]; cbn; [| done].
  by destruct (res_text res).
Qed.

(** X24.  [getAsset] always resolves; when its request fails, or the body
    cannot be read, it resolves to [null]. *)
Theorem getAsset_resolves_and_hides_failures (net : Network) (f : t) (asset : string) :
  (exists result, outcome (getAsset net f asset) = Resolved result) /\
  (forall cfg found e, config f = Some cfg ->
     find_asset cfg asset = Some found ->
     (net (template (fragmentUrl f) ++ "/static/" ++ asset_fileName found) None = Rejected e \/
      exists res,
        net (template (fragmentUrl f) ++ "/static/" ++ asset_fileName found) None = Resolved res /\
        res_text res = Rejected e) ->
     outcome (getAsset net f asset) = Resolved None).
Proof.
  split.
  - unfold getAsset. destruct (config f) as [cfg |]; [| by eexists].
    destruct (find_asset cfg asset) as [found |]; [| by eexists].
    unfold io_catch, fetch, mbind, io_bind; cbn.
    destruct (net _ None) as [res | e]; cbn; [| by eexists].
    destruct (res_text res); by eexists.
  - intros cfg found e Hcfg Hfound Hfail. unfold getAsset. rewrite Hcfg, Hfound.
    unfold io_catch, fetch, mbind, io_bind; cbn.
    destruct Hfail as [-> | (res & -> & Htext)]; cbn; [done |]. by rewrite Htext.
Qed.

End ClientFurther.

(** ** The further properties on the sample configurations *)

Section FurtherOnSamples.

Import Samples.
#[local] Existing Instance sample_config.
#[local] Existing Instance sample_runtime.

(** X3 on a sample: the stored catalog, then the catalog of the same
    hash. *)
Lemma poll_after_poll_of_same_hash_is_noop_sample :
  IExposeConfig.hash (deref catalog_polled) = IExposeConfig.hash (deref catalog_stored) /\
  GatewayStorefrontInstance.settle (Resolved catalog_polled)
    (GatewayStorefrontInstance.settle (Resolved catalog_stored)
       (GatewayStorefrontInstance.self browsing_world))
  = GatewayStorefrontInstance.settle (Resolved catalog_stored)
      (GatewayStorefrontInstance.self browsing_world).
Proof.
  split; [reflexivity |].
  apply (poll_after_poll_of_same_hash_is_noop catalog_stored catalog_polled). reflexivity.
Defined.

(** X6 on a sample: a timer was leaked before; the pair that follows
    leaves that timer and no other. *)
Lemma start_then_stop_restores_the_timers_sample :
  let before := [GatewayStorefrontInstance.StartUpdating None] in
  let between := [GatewayStorefrontInstance.Fire 1;
                  GatewayStorefrontInstance.Settled (Resolved catalog_stored)] in
  Forall GatewayStorefrontInstance.quiet between /\
  scheduled
    (GatewayStorefrontInstance.loop
       (GatewayStorefrontInstance.stopUpdating
          (GatewayStorefrontInstance.run between
             (GatewayStorefrontInstance.startUpdating (Some 500)
                (GatewayStorefrontInstance.run before browsing_world)))))
  = scheduled (GatewayStorefrontInstance.loop
                 (GatewayStorefrontInstance.run before browsing_world)).
Proof.
  intros before between.
  assert (Hquiet : Forall GatewayStorefrontInstance.quiet between)
    by (repeat constructor).
  split; [exact Hquiet |].
  exact (proj1 (start_then_stop_restores_the_timers "Browsing" "http://localhost:4446"
                  before between (Some 500) Hquiet)).
Defined.

(** X7 on a sample: the sample gateway serves [product]. *)
Lemma constructed_gateway_serves_configured_fragments_sample :
  GatewayBFF.new (browsing product_handler) = Resolved (browsing_gateway product_handler) /\
  exists fragment,
    GatewayBFF.registered (browsing_gateway product_handler) "product" = Own fragment.
Proof.
  assert (Hnew : GatewayBFF.new (browsing product_handler)
                 = Resolved (browsing_gateway product_handler))
    by (vm_compute; reflexivity).
  split; [exact Hnew |].
  destruct (constructed_gateway_serves_configured_fragments _ _ "product" Hnew)
    as [[_ Hserved] _].
  apply Hserved. cbn. by left.
Defined.

(** The sample gateway serves nothing under a name it inherits, and its
    catalog has no property of that name. *)
Example inherited_names_are_not_served :
  GatewayBFF.registered (browsing_gateway product_handler) "constructor"
    = Foreign "constructor" /\
  own_properties
    (IExposeConfig.fragments (GatewayBFF.exposedConfig (browsing_gateway product_handler)))
    !! "constructor" = None.
Proof. split; vm_compute; reflexivity. Qed.

(** X8 on a sample: the live version of the fragment is not configured. *)
Lemma gateway_construction_fails_without_live_version_sample :
  read (versions (product_without_live product_handler))
    (version (product_without_live product_handler)) = Absent /\
  exists e,
    GatewayBFF.new
      {| gateway_name := "Browsing"; gateway_url := "http://localhost:4446";
         gateway_port := 4446; gateway_isMobile := None;
         gateway_fragments := [product_without_live product_handler] |}
    = Rejected e.
Proof.
  assert (Habsent : read (versions (product_without_live product_handler))
                      (version (product_without_live product_handler)) = Absent)
    by (vm_compute; reflexivity).
  split; [exact Habsent |].
  exact (gateway_construction_fails_without_live_version
           {| gateway_name := "Browsing"; gateway_url := "http://localhost:4446";
              gateway_port := 4446; gateway_isMobile := None;
              gateway_fragments := [product_without_live product_handler] |}
           (product_without_live product_handler) (list_elem_of_here _ _) Habsent).
Defined.

(** X9 on a sample: of the two product fragments, the second is served. *)
Lemma last_fragment_of_a_name_is_served_sample :
  exists g,
    GatewayBFF.new browsing_twice = Resolved g /\
    GatewayBFF.fragments g !! "product" = Some (FragmentBFF.new (product product_handler)).
Proof.
  assert (Hnew : exists g, GatewayBFF.new browsing_twice = Resolved g)
    by (eexists; vm_compute; reflexivity).
  destruct Hnew as [g Hnew]. exists g. split; [exact Hnew |].
  assert (Hlast : fragment_name (product product_handler) ∉ fragment_name <$> ([] : list IFragmentBFF))
    by (cbn; apply not_elem_of_nil).
  exact (proj1 (last_fragment_of_a_name_is_served browsing_twice g
                  [product failing_handler] [] (product product_handler)
                  eq_refl Hlast Hnew)).
Defined.

(** X10 on a sample: the route of the product fragment. *)
Lemma fragment_routes_of_constructed_gateway_sample :
  GatewayBFF.new (browsing product_handler) = Resolved (browsing_gateway product_handler) /\
  ("/product/", product product_handler)
    ∈ GatewayBFF.addFragmentRoutes (browsing_gateway product_handler) /\
  (testCookie (product product_handler) ∉ object_prototype_names) /\
  (PREVIEW_PARTIAL_QUERY_NAME ∉ object_prototype_names) /\
  exists fragment,
    GatewayBFF.registered (browsing_gateway product_handler) "product" = Own fragment.
Proof.
  assert (Hnew : GatewayBFF.new (browsing product_handler)
                 = Resolved (browsing_gateway product_handler))
    by (vm_compute; reflexivity).
  assert (Hroute : ("/product/", product product_handler)
                     ∈ GatewayBFF.addFragmentRoutes (browsing_gateway product_handler))
    by (cbn; by left).
  assert (Hcookie : testCookie (product product_handler) ∉ object_prototype_names)
    by (apply (bool_decide_unpack _); vm_compute; exact I).
  assert (Hpartial : PREVIEW_PARTIAL_QUERY_NAME ∉ object_prototype_names)
    by (apply (bool_decide_unpack _); vm_compute; exact I).
  split; [exact Hnew |]. split; [exact Hroute |].
  split; [exact Hcookie |]. split; [exact Hpartial |].
  destruct (fragment_routes_of_constructed_gateway _ _ _ _ stream_request Hnew Hroute
              Hcookie Hpartial)
    as (_ & fragment & Hfragment & _).
  by exists fragment.
Defined.

(** The preview of a partial the render did not give prints what the
    partials inherit under the name, and [undefined] when there is
    nothing. *)
Example preview_of_other_partials :
  GatewayBFF.renderFragment (browsing_gateway product_handler) "product" None
    "constructor" None
  = Resolved
      ("<html><head><title>Browsing - product</title></head><body>"
       ++ "function Object() { [native code] }" ++ "</body></html>") /\
  GatewayBFF.renderFragment (browsing_gateway product_handler) "product" None
    "footer" None
  = Resolved
      ("<html><head><title>Browsing - product</title></head><body>"
       ++ "undefined" ++ "</body></html>").
Proof. split; vm_compute; reflexivity. Qed.

(** X12 on a sample: the cookie names the configured version of a
    fragment whose live version is missing. *)
Lemma render_with_cookie_is_render_of_that_live_version_sample :
  "1.0.0" ≠ "" /\
  FragmentBFF.render (FragmentBFF.new (product_without_live product_handler)) ∅ (Some "1.0.0")
  = FragmentBFF.render
      (FragmentBFF.new (with_live_version "1.0.0" (product_without_live product_handler)))
      ∅ None.
Proof.
  assert (Hv : "1.0.0" ≠ "") by discriminate.
  split; [exact Hv |].
  exact (render_with_cookie_is_render_of_that_live_version _ ∅ "1.0.0" Hv).
Defined.

(** X13 on a sample: the cookie names a version that is not configured. *)
Lemma placeholder_falls_back_to_live_version_sample :
  FragmentBFF.construct (product product_handler)
    = Resolved (FragmentBFF.new (product product_handler)) /\
  is_Some (versions (product product_handler) !! version (product product_handler)) /\
  exists h,
    FragmentBFF.placeholder (FragmentBFF.new (product product_handler)) ∅ (Some "2.0.0")
    = Resolved (IFragmentHandler.placeholder h tt).
Proof.
  assert (Hconstruct : FragmentBFF.construct (product product_handler)
                       = Resolved (FragmentBFF.new (product product_handler)))
    by (vm_compute; reflexivity).
  assert (Hlive : is_Some (versions (product product_handler)
                             !! version (product product_handler)))
    by (vm_compute; by eexists).
  split; [exact Hconstruct |]. split; [exact Hlive |].
  destruct (placeholder_falls_back_to_live_version _ _ ∅ (Some "2.0.0") Hconstruct Hlive)
    as (_ & Hfallback & _).
  destruct Hfallback as (h & _ & Hplaceholder).
  { intros v [= <-]. right. split; [by vm_compute |].
    apply (bool_decide_unpack _). vm_compute. exact I. }
  by exists h.
Defined.

(** A cookie that names a member every object inherits is taken for a
    version, by [placeholder] and by [render]. *)
Example inherited_name_as_version_cookie :
  FragmentBFF.placeholder (FragmentBFF.new (product product_handler)) ∅ (Some "constructor")
    = Rejected "TypeError: handler.placeholder is not a function" /\
  FragmentBFF.render (FragmentBFF.new (product product_handler)) ∅ (Some "constructor")
    = Rejected "Failed to find data handler for fragment. Fragment: product, Version: constructor".
Proof. split; vm_compute; reflexivity. Qed.

(** The endpoint and the version of the sample api. *)
Example basket_routes :
  Api.routes basket_api
  = [ {| Api.route_path := "/api/basket/1.0.0/items"; Api.route_method := GET;
         Api.route_version := "1.0.0"; Api.route_controller := "list" |} ].
Proof. vm_compute. reflexivity. Qed.

(** X14 on a sample: a request without cookie for the items of the
    basket. *)
Lemma rewritten_url_is_a_registered_route_sample :
  let req := {| Api.url := "/items"; Api.cookies := ∅ |} in
  Api.url (Api.version_middleware basket_api req) = "/1.0.0/items" /\
  {| Api.route_path := "/api/basket/1.0.0/items"; Api.route_method := GET;
     Api.route_version := "1.0.0"; Api.route_controller := "list" |}
  ∈ Api.routes basket_api.
Proof.
  intros req. split; [vm_compute; reflexivity |].
  exact (rewritten_url_is_a_registered_route basket_api req
           {| Api.endpoints :=
                [ {| Api.path := "/items"; Api.method := GET; Api.cacheControl := None;
                     Api.routeCache := None; Api.controller := "list" |} ] |}
           {| Api.path := "/items"; Api.method := GET; Api.cacheControl := None;
              Api.routeCache := None; Api.controller := "list" |}
           eq_refl (list_elem_of_here _ _) eq_refl).
Defined.

(** X15 on a sample: the page request for [/product/]. *)
Lemma routeRequest_drops_the_fragment_name_sample :
  FragmentStorefront.url page_request ≠ "" /\
  url_parse (FragmentStorefront.url page_request) = Resolved page_request_parsed /\
  pathname page_request_parsed = Some ("/" ++ "product" ++ "/") /\
  FragmentStorefront.routeRequest (product_configured plain_render) ∅ (Some page_request)
  = Resolved ("/" ++ "?" ++ querystring_stringify
                             (FragmentStorefront.forwarded_query ∅ (Some page_request))).
Proof.
  assert (Hurl : FragmentStorefront.url page_request ≠ "") by discriminate.
  assert (Hparse : url_parse (FragmentStorefront.url page_request)
                   = Resolved page_request_parsed) by reflexivity.
  assert (Hpath : pathname page_request_parsed = Some ("/" ++ "product" ++ "/"))
    by reflexivity.
  split; [exact Hurl |]. split; [exact Hparse |]. split; [exact Hpath |].
  exact (routeRequest_drops_the_fragment_name (product_configured plain_render) ∅
           page_request page_request_parsed "/" Hurl Hparse Hpath).
Defined.

(** X16 on a sample: the request times out. *)
Lemma getContent_sends_one_request_and_logs_failures_sample :
  FragmentStorefront.config (product_configured plain_render) = Some (descriptor plain_render) /\
  FragmentStorefront.routeRequest (product_configured plain_render) ∅ None
    = Resolved "/?__renderMode;" /\
  FragmentStorefront.trace
    (FragmentStorefront.getContent network_down (product_configured plain_render) None None)
  = [ FragmentStorefront.Fetch
        ("http://localhost:4446/product" ++ "/?__renderMode;")
        (Some (FragmentStorefront.requestConfiguration (descriptor plain_render) None));
      FragmentStorefront.LogError "Failed to get contents for fragment: product" ].
Proof.
  assert (Hroute : FragmentStorefront.routeRequest (product_configured plain_render)
                     (default ∅ None) None = Resolved "/?__renderMode;")
    by (vm_compute; reflexivity).
  split; [reflexivity |]. split; [exact Hroute |].
  destruct (getContent_sends_one_request_and_logs_failures network_down
              (product_configured plain_render) (descriptor plain_render) None None eq_refl)
    as [Hsent _].
  exact (Hsent _ Hroute).
Defined.

(** A caller request whose url has no path: nothing is sent, and the
    promise of [getContent] rejects. *)
Example getContent_of_a_url_without_path :
  FragmentStorefront.getContent network_up (product_configured plain_render) None
    (Some {| FragmentStorefront.url := "?color=red";
             FragmentStorefront.caller_headers := None |})
  = {| FragmentStorefront.trace := [];
       FragmentStorefront.outcome :=
         Rejected "TypeError: Cannot read property 'replace' of null" |}.
Proof. vm_compute. reflexivity. Qed.

(** X17 on a sample: the fragment answers 404 with a body. *)
Lemma getContent_passes_the_status_on_sample :
  FragmentStorefront.routeRequest (product_configured plain_render) ∅ (Some page_request)
    = Resolved "/?__renderMode;color;" /\
  FragmentStorefront.outcome
    (FragmentStorefront.getContent network_not_found (product_configured plain_render)
       None (Some page_request))
  = Resolved {| FragmentStorefront.status := 404;
                FragmentStorefront.html := {[ "main" := "Product Content Not Found" ]} |}.
Proof.
  assert (Hroute : FragmentStorefront.routeRequest (product_configured plain_render)
                     (default ∅ None) (Some page_request) = Resolved "/?__renderMode;color;")
    by (vm_compute; reflexivity).
  split; [exact Hroute |].
  exact (getContent_passes_the_status_on network_not_found (product_configured plain_render)
           (descriptor plain_render) None (Some page_request) _ _ _
           eq_refl Hroute eq_refl eq_refl).
Defined.

(** X18 on a sample: no asset url, so the request goes to the gateway. *)
Lemma content_request_goes_to_the_resolved_fragment_url_sample :
  FragmentStorefront.routeRequest product_unconfigured ∅ None = Resolved "/?__renderMode;" /\
  FragmentStorefront.requests
    (FragmentStorefront.trace
       (FragmentStorefront.getContent network_up
          (FragmentStorefront.update (descriptor plain_render) "http://localhost:4446" None
             product_unconfigured)
          None None))
  = [ "http://localhost:4446/product" ++ "/?__renderMode;" ].
Proof.
  assert (Hroute : FragmentStorefront.routeRequest product_unconfigured (default ∅ None) None
                   = Resolved "/?__renderMode;")
    by (vm_compute; reflexivity).
  split; [exact Hroute |].
  exact (content_request_goes_to_the_resolved_fragment_url network_up product_unconfigured
           (descriptor plain_render) "http://localhost:4446" None None None _ Hroute).
Defined.

(** X19 on a sample: the sample default and a descriptor without
    timeout. *)
Lemma content_timeout_is_never_zero_sample :
  DEFAULT_CONTENT_TIMEOUT ≠ 0 /\
  FragmentStorefront.timeout
    (FragmentStorefront.requestConfiguration (descriptor plain_render) None) ≠ 0.
Proof.
  assert (Hdefault : DEFAULT_CONTENT_TIMEOUT ≠ 0) by discriminate.
  split; [exact Hdefault |].
  exact (proj1 (content_timeout_is_never_zero (descriptor plain_render) None Hdefault)).
Defined.

(** X21 on a sample: two assets are declared as [bundle]; the first one
    gives the path. *)
Lemma getAssetPath_is_the_first_declared_file_sample :
  FragmentStorefront.getAssetPath product_with_assets "bundle"
  = {| FragmentStorefront.trace := [];
       FragmentStorefront.outcome :=
         Resolved (Some ("http://localhost:4446/product" ++ "/static/" ++ "bundle.min.js")) |}.
Proof.
  exact (getAssetPath_is_the_first_declared_file product_with_assets descriptor_with_assets
           "bundle" [] [ {| asset_name := "bundle"; asset_fileName := "bundle.old.js" |} ]
           {| asset_name := "bundle"; asset_fileName := "bundle.min.js" |}
           eq_refl eq_refl (not_elem_of_nil _) eq_refl).
Defined.

(** Assets of the sample fragment over a network that answers and one
    that does not. *)
Example getAsset_samples :
  FragmentStorefront.getAsset network_up product_with_assets "bundle"
    = {| FragmentStorefront.trace :=
           [FragmentStorefront.Fetch "http://localhost:4446/product/static/bundle.min.js" None];
         FragmentStorefront.outcome := Resolved (Some "Product Placeholder") |} /\
  FragmentStorefront.outcome
    (FragmentStorefront.getAsset network_down product_with_assets "bundle") = Resolved None /\
  FragmentStorefront.getAsset network_up product_with_assets "styles"
    = {| FragmentStorefront.trace :=
           [FragmentStorefront.LogError "Asset not declared in fragments asset list: styles"];
         FragmentStorefront.outcome := Resolved None |}.
Proof. repeat split; vm_compute; reflexivity. Qed.

End FurtherOnSamples.
